(** * Search-engine scraping helpers of calibre: a shallow embedding

    Source: [src/calibre/ebooks/metadata/sources/search_engines.py].

    Conventions of the embedding.
    - Python text is a [string] holding its UTF-8 encoding, one [ascii] per
      byte.  Every literal the source searches for or splits on is ASCII, so
      searching, splitting and replacing on the bytes agree with the same
      operations on code points.
    - A call that may raise returns an [outcome]; a function that logs
      threads the list of log calls made so far.
    - The monotonic clock is a rational number of seconds; the
      process-wide [last_visited] dictionary is a [gmap].
    - The element tree handed out by the HTML parser is an inductive [node];
      the XPath expressions of the source are evaluated by a small
      evaluator for the fragment of XPath they use.
    - Calls are sequential: taking and releasing [last_visited_lock] has
      no effect of its own and is left out.
    - The library calls ([str] methods, [re], [urllib], [json] values) are
      modelled on Python 3; [ddg_href] and [encode_query], where Python 2
      and Python 3 part, take the runtime as an argument. *)

From Stdlib Require Import QArith Lqa Ascii String Floats.
From stdpp Require Import gmap strings list fin_maps.

Set Warnings "-register-all".

Open Scope string_scope.
Open Scope list_scope.

(* ===================================================================== *)
(** * Part I: definitions                                                 *)
(* ===================================================================== *)

(** ** Exceptions and results *)

(** The exception classes the modelled code can raise, plus the failures
    of the injected capabilities (transport, parser). *)
Inductive exn : Type :=
| IndexError
| KeyError
| ValueError
| AttributeError
| TypeError
| UnicodeError
| TransportError (msg : string)
| ParseError (msg : string)
| OSError (msg : string).

Inductive outcome (A : Type) : Type :=
| Ok (a : A)
| Raise (e : exn).
Arguments Ok {A} a.
Arguments Raise {A} e.

Definition bind {A B : Type} (x : outcome A) (k : A -> outcome B) : outcome B :=
  match x with
  | Ok a => k a
  | Raise e => Raise e
  end.

Notation "'try!' x <- c ; k" := (bind c (fun x => k))
  (at level 10, x name, c at level 100, k at level 200,
   format "'[v' 'try!'  x  <-  c ; '/' k ']'").

(** The Python runtime under the program.  The source is written for
    both: it imports from [__future__] and falls back to the Python 2
    module names when the Python 3 imports fail.  Where the two runtimes
    differ, a definition takes the runtime as an argument; everything else
    is Python 3. *)
Inductive runtime : Type := Python2 | Python3.

(** ** Python string primitives *)

Module PyStr.

Definition dquote : ascii := "034"%char.
Definition newline : ascii := "010"%char.

(** [str.lower], on the ASCII letters.  No code point outside ASCII
    lower-cases to an ASCII letter of the words the source compares
    against ([map], [news], [or], [and], [not]). *)
Definition lower_char (c : ascii) : ascii :=
  let n := nat_of_ascii c in
  if (65 <=? n)%nat && (n <=? 90)%nat then ascii_of_nat (n + 32) else c.

Fixpoint lower (s : string) : string :=
  match s with
  | "" => ""
  | String c s' => String (lower_char c) (lower s')
  end.

(** [s.replace(old, new)] for a non-empty [old] (every call site passes a
    non-empty literal): scan from the left, and at each occurrence of
    [old] emit [new] and jump over the occurrence.  [skip] counts the
    characters of a replaced occurrence that remain to be jumped over. *)
Fixpoint replace_from (old new : string) (skip : nat) (s : string) : string :=
  match s with
  | "" => ""
  | String c s' =>
      match skip with
      | S k => replace_from old new k s'
      | O =>
          if String.prefix old s
          then new +:+ replace_from old new (String.length old - 1) s'
          else String c (replace_from old new 0 s')
      end
  end.

Definition replace (old new s : string) : string := replace_from old new 0 s.

(** [s.startswith(p)] *)
Definition startswith (s p : string) : bool := String.prefix p s.

(** [s[n:]] *)
Fixpoint drop (n : nat) (s : string) : string :=
  match n, s with
  | O, _ => s
  | S _, "" => ""
  | S k, String _ s' => drop k s'
  end.

(** [s.partition(sep)] for a one-character separator: the text before the
    first separator, the separator (empty when absent) and the text after
    it. *)
Fixpoint partition (sep : ascii) (s : string) : string * string * string :=
  match s with
  | "" => ("", "", "")
  | String c s' =>
      if Ascii.eqb c sep then ("", String sep "", s')
      else let '(a, m, b) := partition sep s' in (String c a, m, b)
  end.

(** [s.split(sep)] for a one-character separator: always at least one
    field. *)
Fixpoint split (sep : ascii) (s : string) : list string :=
  match s with
  | "" => [""]
  | String c s' =>
      if Ascii.eqb c sep then "" :: split sep s'
      else match split sep s' with
           | f :: fs => String c f :: fs
           | [] => [String c ""]
           end
  end.

(** [sep.join(parts)] *)
Fixpoint join (sep : string) (parts : list string) : string :=
  match parts with
  | [] => ""
  | [p] => p
  | p :: ps => p +:+ sep +:+ join sep ps
  end.

(** [c in s] for a character *)
Fixpoint contains_char (c : ascii) (s : string) : bool :=
  match s with
  | "" => false
  | String d s' => Ascii.eqb d c || contains_char c s'
  end.

(** [l[-2:]] *)
Definition last_two {A : Type} (l : list A) : list A :=
  list.drop (length l - 2) l.

End PyStr.

(** ** Query sanitizers (source lines 101-107, 174-178, 236-240) *)

Definition operators : list string := ["OR"; "AND"; "NOT"].
Definition ddg_keywords : list string := ["map"; "news"].

(** [ddg_term]: strip quotes, then quote a result-type keyword, then
    lower-case an operator; three statements in sequence, each on the
    value left by the one before. *)
Definition ddg_term (t : string) : string :=
  let t := PyStr.replace (String PyStr.dquote "") "" t in
  let t := if bool_decide (PyStr.lower t ∈ ddg_keywords)
           then String PyStr.dquote t +:+ String PyStr.dquote ""
           else t in
  let t := if bool_decide (t ∈ operators) then PyStr.lower t else t in
  t.

Definition bing_term (t : string) : string :=
  let t := PyStr.replace (String PyStr.dquote "") "" t in
  let t := if bool_decide (t ∈ operators) then PyStr.lower t else t in
  t.

Definition google_term (t : string) : string :=
  let t := PyStr.replace (String PyStr.dquote "") "" t in
  let t := if bool_decide (t ∈ operators) then PyStr.lower t else t in
  t.

(** The words of the specification: "the term with all double quotes
    removed". *)
Fixpoint without_quotes (t : string) : string :=
  match t with
  | "" => ""
  | String c t' =>
      if Ascii.eqb c PyStr.dquote then without_quotes t'
      else String c (without_quotes t')
  end.

(** ** Cache-URL resolver (source lines 132-141, 181-182, 243-244, 335-341) *)

(** Whether the pattern [https?:] matches at the very start of [s]. *)
Definition https_at (s : string) : bool :=
  String.prefix "http:" s || String.prefix "https:" s.

(** [re.search('https?:', url)]: the start of the leftmost match, if any. *)
Fixpoint search_https (s : string) : option nat :=
  match s with
  | "" => None
  | String _ s' => if https_at s then Some 0%nat else S <$> search_https s'
  end.

(** The words of the specification: [i] is where the first embedded
    [http:] or [https:] of [s] starts. *)
Definition first_https_at (i : nat) (s : string) : Prop :=
  (i < String.length s)%nat
  /\ https_at (PyStr.drop i s) = true
  /\ forall j, (j < i)%nat -> https_at (PyStr.drop j s) = false.

Definition no_https (s : string) : Prop :=
  forall j, https_at (PyStr.drop j s) = false.

Definition archive_host : string := "https://web.archive.org".

Definition wayback_url_processor (url : string) : string :=
  if PyStr.startswith url "/" then
    match search_https url with
    | None => archive_host +:+ url
    | Some start => PyStr.drop start url
    end
  else url.

Definition bing_url_processor (url : string) : string := url.

Definition google_url_processor (url : string) : string := url.

(** [prefix, rest = url.partition(':')[::2]] *)
Definition resolve_url (url : string) : string :=
  let '(prefix, _, rest) := PyStr.partition ":" url in
  if bool_decide (prefix = "bing") then bing_url_processor rest
  else if bool_decide (prefix = "wayback") then wayback_url_processor rest
  else url.

(** ** Percent-decoding and query strings (urllib) *)

Module Url.

Definition hexval (c : ascii) : option nat :=
  let n := nat_of_ascii c in
  if (48 <=? n)%nat && (n <=? 57)%nat then Some (n - 48)%nat
  else if (65 <=? n)%nat && (n <=? 70)%nat then Some (n - 55)%nat
  else if (97 <=? n)%nat && (n <=? 102)%nat then Some (n - 87)%nat
  else None.

(** [unquote_to_bytes]: every [%XX] with two hex digits becomes the byte
    it names; any other [%] stays. *)
Fixpoint unquote_to_bytes (s : string) : string :=
  match s with
  | "" => ""
  | String c s' =>
      if Ascii.eqb c "%" then
        match s' with
        | String a (String b rest) =>
            match hexval a, hexval b with
            | Some x, Some y =>
                String (ascii_of_nat (16 * x + y)) (unquote_to_bytes rest)
            | _, _ => String c (unquote_to_bytes s')
            end
        | _ => String c (unquote_to_bytes s')
        end
      else String c (unquote_to_bytes s')
  end.

(** One field of a query string: dropped when it is empty, has no [=] or
    has a blank value ([keep_blank_values] is off); otherwise name and
    value have [+] turned into a space and are percent-decoded. *)
Definition parse_field (name_value : string) : option (string * string) :=
  let '(name, _, value) := PyStr.partition "=" name_value in
  if bool_decide (value = "") then None
  else Some (unquote_to_bytes (PyStr.replace "+" " " name),
             unquote_to_bytes (PyStr.replace "+" " " value)).

(** The fields of a query string: Python 3 (3.9.2 and later) separates
    them at [&], Python 2 at [&] and at [;]. *)
Definition fields (rt : runtime) (qs : string) : list string :=
  match rt with
  | Python3 => PyStr.split "&" qs
  | Python2 => concat (map (PyStr.split ";") (PyStr.split "&" qs))
  end.

(** [parse_qsl(qs)] on a byte string. *)
Definition parse_qsl (rt : runtime) (qs : string) : list (string * string) :=
  omap parse_field (fields rt qs).

Definition between (lo hi : nat) (c : ascii) : bool :=
  let n := nat_of_ascii c in (lo <=? n)%nat && (n <=? hi)%nat.

Fixpoint is_ascii (s : string) : bool :=
  match s with
  | "" => true
  | String c s' => between 0 127 c && is_ascii s'
  end.

(** Whether the query string and every name and value [parse_qsl] keeps
    are plain ASCII. *)
Definition ascii_clean (rt : runtime) (qs : string) : bool :=
  is_ascii qs
  && forallb (fun nv : string * string => is_ascii nv.1 && is_ascii nv.2)
             (parse_qsl rt qs).

(** A dictionary key: a bytes object or a text object.  On Python 3 the
    two never compare equal. *)
Inductive pykey : Type := KBytes (b : string) | KText (t : string).

#[global] Instance pykey_eq_dec : EqDecision pykey.
Proof. solve_decision. Defined.

#[global] Instance pykey_countable : Countable pykey :=
  inj_countable'
    (fun k => match k with KBytes b => inl b | KText t => inr t end)
    (fun x => match x with inl b => KBytes b | inr t => KText t end)
    (fun k => match k with KBytes _ => eq_refl | KText _ => eq_refl end).

(** The dictionary [parse_qs] builds from the pairs: every key is a bytes
    object, each with the list of its values in the order of the query
    string. *)
Definition collect (pairs : list (string * string)) : gmap pykey (list string) :=
  foldl (fun (d : gmap pykey (list string)) (nv : string * string) =>
           <[KBytes nv.1 := app (default [] (d !! KBytes nv.1)) [nv.2]]> d)
        ∅ pairs.

(** [parse_qs(qs)] on a byte string.  Python 2 works on the bytes as they
    are.  Python 3 (up to 3.11) first decodes the query string as ASCII
    and encodes every name and value back to ASCII, so that anything
    outside ASCII, before or after percent-decoding, raises a Unicode
    error; the keys and values handed back are bytes objects again. *)
Definition parse_qs (rt : runtime) (qs : string)
    : outcome (gmap pykey (list string)) :=
  match rt with
  | Python2 => Ok (collect (parse_qsl rt qs))
  | Python3 =>
      if ascii_clean rt qs then Ok (collect (parse_qsl rt qs))
      else Raise UnicodeError
  end.

(** [d[key]] for a text key.  On Python 3 only a text key of the
    dictionary matches.  On Python 2 a byte string and a unicode string
    with the same ASCII characters are equal and hash alike, so the text
    key also finds the bytes key. *)
Definition getitem_text {V : Type} (rt : runtime) (d : gmap pykey V)
    (key : string) : outcome V :=
  let found :=
    match rt with
    | Python3 => d !! KText key
    | Python2 =>
        match d !! KText key with
        | Some v => Some v
        | None => if is_ascii key then d !! KBytes key else None
        end
    end in
  match found with
  | Some v => Ok v
  | None => Raise KeyError
  end.

(** Whether [bytes.decode('utf-8')] succeeds.  Python 3 takes the
    well-formed byte sequences of UTF-8: no overlong forms, no surrogates,
    nothing above U+10FFFF.  The codec of Python 2.7 differs in one place:
    it also takes the three-byte forms of the surrogates U+D800 to U+DFFF
    (lead byte [ED], second byte [A0] to [BF]). *)
Fixpoint utf8_valid (rt : runtime) (s : string) : bool :=
  match s with
  | "" => true
  | String b0 r0 =>
      if between 0 127 b0 then utf8_valid rt r0
      else if between 194 223 b0 then
        match r0 with
        | String b1 r1 => between 128 191 b1 && utf8_valid rt r1
        | _ => false
        end
      else if between 224 239 b0 then
        match r0 with
        | String b1 (String b2 r2) =>
            (if between 224 224 b0 then between 160 191 b1
             else if between 237 237 b0 then
               match rt with
               | Python3 => between 128 159 b1
               | Python2 => between 128 191 b1
               end
             else between 128 191 b1)
            && between 128 191 b2 && utf8_valid rt r2
        | _ => false
        end
      else if between 240 244 b0 then
        match r0 with
        | String b1 (String b2 (String b3 r3)) =>
            (if between 240 240 b0 then between 144 191 b1
             else if between 244 244 b0 then between 128 143 b1
             else between 128 191 b1)
            && between 128 191 b2 && between 128 191 b3 && utf8_valid rt r3
        | _ => false
        end
      else false
  end.

(** [b.decode('utf-8')] *)
Definition decode_utf8 (rt : runtime) (b : string) : outcome string :=
  if utf8_valid rt b then Ok b else Raise UnicodeError.

End Url.

(** ** DDG indirect links (source lines 110-114) *)

(** [parse_qs(q.encode('utf-8'))['uddg'][0].decode('utf-8')]: the query
    string goes in as bytes, the subscript ['uddg'] is a text literal
    (the module imports [unicode_literals]). *)
Definition ddg_href (rt : runtime) (url : string) : outcome string :=
  if PyStr.startswith url "/" then
    let q := (PyStr.partition "?" url).2 in
    try! d <- Url.parse_qs rt q;
    try! values <- Url.getitem_text rt d "uddg";
    match values with
    | [] => Raise IndexError
    | v :: _ => Url.decode_utf8 rt v
    end
  else Ok url.

(** The words of the specification: the percent-decoded values of the
    parameter [name] in the query string [q], first one first.  A field
    with a blank value is no value: [parse_qsl] drops it. *)
Definition query_values (rt : runtime) (name q : string) : list string :=
  (filter (fun nv : string * string => nv.1 = name) (Url.parse_qsl rt q)).*2.

(** What the specification has [ddg_href] answer for an href that begins
    with [/]: the first value of [uddg], or [KeyError] without one. *)
Definition uddg_answer (rt : runtime) (href : string) : Prop :=
  match query_values rt "uddg" (PyStr.partition "?" href).2 with
  | [] => ddg_href rt href = Raise KeyError
  | v :: _ => ddg_href rt href = Ok v
  end.

(** ** Decoded JSON (the value [json.loads] hands to the wayback lookup) *)

(** A JSON object is kept as the list of its members; a lookup takes the
    first member with the key. *)
Inductive pyval : Type :=
| PyNone
| PyBool (b : bool)
| PyInt (n : Z)
| PyFloat (f : float)
| PyStr (s : string)
| PyList (items : list pyval)
| PyDict (members : list (string * pyval)).

Module Py.

Fixpoint assoc {V : Type} (k : string) (l : list (string * V)) : option V :=
  match l with
  | [] => None
  | (k', v) :: l' => if String.eqb k' k then Some v else assoc k l'
  end.

(** [v[key]] for a string key *)
Definition getitem (v : pyval) (key : string) : outcome pyval :=
  match v with
  | PyDict members =>
      match assoc key members with
      | Some x => Ok x
      | None => Raise KeyError
      end
  | _ => Raise TypeError
  end.

(** The truth value of [v] in an [if]. *)
Definition truthy (v : pyval) : bool :=
  match v with
  | PyNone => false
  | PyBool b => b
  | PyInt n => negb (n =? 0)%Z
  | PyFloat f => negb (PrimFloat.eqb f 0%float)
  | PyStr s => negb (String.eqb s "")
  | PyList items => match items with [] => false | _ => true end
  | PyDict members => match members with [] => false | _ => true end
  end.

(** [v.replace(old, new)]: only text has the method. *)
Definition str_replace (v : pyval) (old new : string) : outcome string :=
  match v with
  | PyStr s => Ok (PyStr.replace old new s)
  | _ => Raise AttributeError
  end.

End Py.

(** ** The diagnostic log *)

(** One constructor per [log(...)] call of the source, carrying the values
    the call formats. *)
Inductive log_line : Type :=
| LogMakingQuery (engine url : string)
| LogNoCachedPage (title : string)
| LogNoMainLink
| LogNoResults (title : string)
| LogWaybackResponse (data : pyval).

Record Result : Type := mkResult {
  url : option string;
  title : string;
  cached_url : option string
}.

(** ** Wayback availability lookup (source lines 117-129) *)

(** The body of the [try]: [Ok (Some u)] is the [return], [Ok None] falls
    out of the [if]. *)
Definition wayback_closest (data : pyval) : outcome (option string) :=
  try! snapshots <- Py.getitem data "archived_snapshots";
  try! closest <- Py.getitem snapshots "closest";
  try! available <- Py.getitem closest "available";
  if Py.truthy available then
    try! u <- Py.getitem closest "url";
    try! u <- Py.str_replace u "http:" "https:";
    Ok (Some u)
  else Ok None.

(** What [wayback_machine_cached_url] does with the decoded response:
    [except Exception: pass] swallows every failure of the body, and both
    the failure and the falsy [available] reach the [log] call and the
    implicit [return None]. *)
Definition wayback_machine_cached_url_of
    (data : pyval) (log : list log_line) : list log_line * option string :=
  match wayback_closest data with
  | Ok (Some u) => (log, Some u)
  | Ok None | Raise _ => (log ++ [LogWaybackResponse data], None)
  end.

(** The shape of the answer of the availability endpoint. *)
Definition snapshot_response (available snapshot_url : pyval) : pyval :=
  PyDict [("archived_snapshots",
           PyDict [("closest",
                    PyDict [("available", available); ("url", snapshot_url)])])].

(** The words of the specification, with "available" read as Python's
    [if] reads it: the response holds [archived_snapshots.closest], its
    [available] member is truthy and its [url] member is the text [u]. *)
Definition available_snapshot (data : pyval) (u : string) : Prop :=
  exists top snaps closest av,
    data = PyDict top
    /\ Py.assoc "archived_snapshots" top = Some (PyDict snaps)
    /\ Py.assoc "closest" snaps = Some (PyDict closest)
    /\ Py.assoc "available" closest = Some av
    /\ Py.truthy av = true
    /\ Py.assoc "url" closest = Some (PyStr u).

(** ** The throttled fetch (source lines 30, 66-89) *)

Open Scope Q_scope.

Inductive event : Type :=
| Slept (seconds : Q)
| FetchBegan (key : string) (at_time : Q)
| FetchEnded (key : string) (at_time : Q).

(** What [with open(path, 'w') as f: f.write(text)] does.  [Dumped]: both
    calls succeed and the file holds the text.  [DumpRaises e remains]:
    [open] or [write] raises [e] (a missing directory, an empty path, a
    text the file's encoding cannot take); [remains] is what the file holds
    afterwards when [open] had succeeded and truncated it, and [None] when
    the file system is as it was. *)
Inductive dump_outcome : Type :=
| Dumped
| DumpRaises (e : exn) (remains : option string).

(** The process state [query] touches: the monotonic clock, the
    [last_visited] dictionary, the file system ([dump_raw]), the list a
    [save_raw] callback appends to, a trace of what happened, and how the
    file system answers an attempt to write a text to a path. *)
Record world : Type := mkWorld {
  clock : Q;
  last_visited : gmap string Q;
  files : gmap string string;
  saved_raw : list string;
  trace : list event;
  disk : string -> string -> dump_outcome
}.

(** What the transport answers: how long the call took and what it
    returned or raised. *)
Record reply : Type := mkReply {
  took : Q;
  body : outcome string
}.

(** A fetch capability: URL, timeout and the time of the call. *)
Definition fetcher : Type := string -> Q -> Q -> reply.

Definition Qltb (a b : Q) : bool := negb (Qle_bool b a).

(** [time.sleep(d)]: the clock advances by [d]. *)
Definition sleep (d : Q) (w : world) : world :=
  mkWorld (clock w + d) (last_visited w) (files w) (saved_raw w)
          (trace w ++ [Slept d]) (disk w).

(** [last_visited[key]] on a [defaultdict(lambda: 0)]: a missing key is
    inserted with the default. *)
Definition read_last_visited (key : string) (w : world) : Q * world :=
  let lv := default 0 (last_visited w !! key) in
  (lv, mkWorld (clock w) (<[key := lv]> (last_visited w)) (files w)
               (saved_raw w) (trace w) (disk w)).

(** [last_visited[key] = monotonic()] *)
Definition write_last_visited (key : string) (w : world) : world :=
  mkWorld (clock w) (<[key := clock w]> (last_visited w)) (files w)
          (saved_raw w) (trace w) (disk w).

(** The seconds [query] sleeps before the fetch. *)
Definition throttle_sleep (limit : Q) (key : string) (w : world) : option Q :=
  let delta := clock w - default 0 (last_visited w !! key) in
  if Qltb delta limit && Qltb 0 delta then Some delta else None.

(** The clock reading at which the fetch begins: after the sleep, when
    there is one. *)
Definition fetch_begins (limit : Q) (key : string) (w : world) : Q :=
  match throttle_sleep limit key w with
  | Some d => clock w + d
  | None => clock w
  end.

Section Query.

(** The decoder of raw bytes, from [calibre.ebooks.chardet]. *)
Variable xml_to_unicode : string -> string.

(** The body of the [try]: the browser's answer decoded, or the answer of
    the [simple_scraper] as it is. *)
Definition attempt (br : fetcher) (simple_scraper : option fetcher)
    (url : string) (timeout began : Q) : reply :=
  match simple_scraper with
  | None =>
      let r := br url timeout began in
      mkReply (took r) (try! raw <- body r; Ok (xml_to_unicode raw))
  | Some scraper => scraper url timeout began
  end.

Context {A : Type}.

(** [with open(dump_raw, 'w') as f: f.write(raw)]: what the file system
    makes of it.  A raise leaves [query] at once. *)
Definition dump (path raw : string) (w : world) : world * outcome unit :=
  match disk w path raw with
  | Dumped =>
      (mkWorld (clock w) (last_visited w) (<[path := raw]> (files w))
               (saved_raw w) (trace w) (disk w), Ok tt)
  | DumpRaises e remains =>
      (mkWorld (clock w) (last_visited w)
               (match remains with
                | Some text => <[path := text]> (files w)
                | None => files w
                end)
               (saved_raw w) (trace w) (disk w), Raise e)
  end.

(** [save_raw] says whether a callback was passed; the one callback of the
    source appends to a list. *)
Definition query (br : fetcher) (url key : string) (dump_raw : option string)
    (limit : Q) (parser : string -> outcome A) (timeout : Q)
    (save_raw : bool) (simple_scraper : option fetcher)
    (w : world) : world * outcome A :=
  let '(lv, w) := read_last_visited key w in
  let delta := clock w - lv in
  let w := if Qltb delta limit && Qltb 0 delta then sleep delta w else w in
  (* try *)
  let began := clock w in
  let rep := attempt br simple_scraper url timeout began in
  let w := mkWorld (began + took rep) (last_visited w) (files w) (saved_raw w)
             (trace w ++ [FetchBegan key began; FetchEnded key (began + took rep)])
             (disk w) in
  (* finally *)
  let w := write_last_visited key w in
  match body rep with
  | Raise e => (w, Raise e)
  | Ok raw =>
      let '(w, dumped) := match dump_raw with
                          | Some path => dump path raw w
                          | None => (w, Ok tt)
                          end in
      match dumped with
      | Raise e => (w, Raise e)
      | Ok _ =>
          let w := if save_raw
                   then mkWorld (clock w) (last_visited w) (files w)
                                (saved_raw w ++ [raw]) (trace w) (disk w)
                   else w in
          (w, parser raw)
      end
  end.

End Query.

Close Scope Q_scope.

(** ** The parsed document and the XPath fragment the source uses *)

Inductive node : Type :=
| Element (tag : string) (attrs : list (string * string)) (children : list node)
| Text (text : string).

Module Dom.

(** [elem.get(name)] *)
Definition get (n : node) (name : string) : option string :=
  match n with
  | Element _ attrs _ => Py.assoc name attrs
  | Text _ => None
  end.

Definition children_of (n : node) : list node :=
  match n with
  | Element _ _ cs => cs
  | Text _ => []
  end.

(** [tostring(elem)]: [etree.tostring(elem, encoding='unicode',
    method='text', with_tail=False)], the text nodes below the element,
    concatenated in document order. *)
Fixpoint tostring (n : node) : string :=
  match n with
  | Text s => s
  | Element _ _ cs =>
      (fix go (l : list node) : string :=
         match l with
         | [] => ""
         | c :: l' => tostring c +:+ go l'
         end) cs
  end.

(** Every node at or below [n], in document order, each paired with the
    chain from the node up to the top: the node itself first, then its
    parent, and so on, ending below the context node [above]. *)
Fixpoint walk (above : list node) (n : node) : list (list node) :=
  (n :: above) ::
  match n with
  | Text _ => []
  | Element _ _ cs =>
      (fix go (l : list node) : list (list node) :=
         match l with
         | [] => []
         | c :: l' => walk (n :: above) c ++ go l'
         end) cs
  end.

Definition walk_forest (forest : list node) : list (list node) :=
  concat (map (walk []) forest).

Inductive axis : Type := Child | Descendant.

(** A location step: [child::test] (written [/test]) or
    [descendant::test] (written [//test] after a step), the test
    including the predicates in brackets. *)
Record step : Type := mkStep { step_axis : axis; step_test : node -> bool }.

(** Whether the chain of a node, read upwards, completes the steps read
    backwards: the node passes the last test and, for the child axis, its
    parent completes the steps before; for the descendant axis, one of
    its proper ancestors does.  The context node sits above the chain, so
    no step left and no node left means the context was reached. *)
Fixpoint reaches (rsteps : list step) (chain : list node) : bool :=
  match rsteps with
  | [] => match chain with [] => true | _ => false end
  | st :: before =>
      match chain with
      | [] => false
      | n :: up =>
          step_test st n &&
          match step_axis st with
          | Child => reaches before up
          | Descendant =>
              (fix some_ancestor (l : list node) : bool :=
                 reaches before l ||
                 match l with
                 | [] => false
                 | _ :: l' => some_ancestor l'
                 end) up
          end
      end
  end.

(** The nodes a location path selects below a context node whose
    children are [forest]: a node set, in document order. *)
Definition select (forest : list node) (path : list step) : list node :=
  omap head (filter (fun chain => reaches (rev path) chain = true)
                    (walk_forest forest)).

(** [root.xpath('//...')]: the context is the document node, whose only
    child is the root element. *)
Definition xpath_abs (root : node) (path : list step) : list node :=
  select [root] path.

(** [elem.xpath('descendant::...')] *)
Definition xpath_rel (elem : node) (path : list step) : list node :=
  select (children_of elem) path.

(** Node tests and predicates *)
Definition is_element (n : node) : bool :=
  match n with Element _ _ _ => true | Text _ => false end.

Definition is_text (n : node) : bool :=
  match n with Text _ => true | Element _ _ _ => false end.

Definition named (name : string) (n : node) : bool :=
  match n with Element t _ _ => String.eqb t name | Text _ => false end.

Definition has_attr (name : string) (n : node) : bool :=
  match get n name with Some _ => true | None => false end.

Definition attr_is (name value : string) (n : node) : bool :=
  match get n name with Some v => String.eqb v value | None => false end.

Definition text_of (n : node) : string :=
  match n with Text s => s | Element _ _ _ => "" end.

End Dom.

Import Dom.

(** [//title/text()] *)
Definition title_text_path : list step :=
  [mkStep Descendant (named "title"); mkStep Child is_text].

(** [' '.join(root.xpath('//title/text()'))] *)
Definition page_title (root : node) : string :=
  PyStr.join " " (map text_of (xpath_abs root title_text_path)).

(** [if not ans: ... log('Failed to find any results ...', title)] *)
Definition log_if_empty (root : node) (ans : list Result)
    (log : list log_line) : list log_line :=
  match ans with
  | [] => log ++ [LogNoResults (page_title root)]
  | _ => log
  end.

(** ** DDG result extraction (source lines 155-158) *)

(** [//*[@class="results"]//*[@class="result__title"]/a[@href and @class="result__a"]] *)
Definition ddg_result_path : list step :=
  [mkStep Descendant (fun n => is_element n && attr_is "class" "results" n);
   mkStep Descendant (fun n => is_element n && attr_is "class" "result__title" n);
   mkStep Child (fun n => named "a" n && has_attr "href" n
                          && attr_is "class" "result__a" n)].

(** The [for a in ...] loop; [ddg_href] is called outside any [try]. *)
Fixpoint ddg_loop (rt : runtime) (anchors : list node) (ans : list Result)
    : outcome (list Result) :=
  match anchors with
  | [] => Ok ans
  | a :: rest =>
      match get a "href" with
      | None => Raise AttributeError
      | Some href =>
          try! u <- ddg_href rt href;
          ddg_loop rt rest (ans ++ [mkResult (Some u) (tostring a) None])
      end
  end.

(** The part of [ddg_search] after [root = query(...)]. *)
Definition ddg_search_results (rt : runtime) (root : node) (log : list log_line)
    : list log_line * outcome (list Result) :=
  (log, ddg_loop rt (xpath_abs root ddg_result_path) []).

(** ** Bing result extraction (source lines 204-221) *)

(** [//*[@id="b_results"]/li[@class="b_algo"]] *)
Definition bing_result_path : list step :=
  [mkStep Descendant (fun n => is_element n && attr_is "id" "b_results" n);
   mkStep Child (fun n => named "li" n && attr_is "class" "b_algo" n)].

(** [descendant::h2/a[@href]] *)
Definition bing_title_path : list step :=
  [mkStep Descendant (named "h2");
   mkStep Child (fun n => named "a" n && has_attr "href" n)].

(** [descendant::div[@class="b_algoheader"]/a[@href]] *)
Definition bing_title_fallback_path : list step :=
  [mkStep Descendant (fun n => named "div" n && attr_is "class" "b_algoheader" n);
   mkStep Child (fun n => named "a" n && has_attr "href" n)].

(** [descendant::div[@class="b_attribution" and @u]] *)
Definition bing_attribution_path : list step :=
  [mkStep Descendant (fun n => named "div" n && attr_is "class" "b_attribution" n
                               && has_attr "u" n)].

Definition bing_cache_url (q d w : string) : string :=
  "https://cc.bingj.com/cache.aspx?q=" +:+ q +:+ "&d=" +:+ d
  +:+ "&mkt=en-US&setlang=en-US&w=" +:+ w.

(** The [for li in ...] loop.  Only the lookup of the attribution [div] is
    inside a [try]; [a = a[0]] and the unpacking [d, w = ...] are not. *)
Fixpoint bing_loop (q : string) (lis : list node) (log : list log_line)
    (ans : list Result) : list log_line * outcome (list Result) :=
  match lis with
  | [] => (log, Ok ans)
  | li :: rest =>
      let a := match xpath_rel li bing_title_path with
               | [] => xpath_rel li bing_title_fallback_path
               | found => found
               end in
      match a with
      | [] => (log, Raise IndexError)
      | a :: _ =>
          let title := tostring a in
          match xpath_rel li bing_attribution_path with
          | [] => bing_loop q rest (log ++ [LogNoCachedPage title]) ans
          | div :: _ =>
              match get div "u" with
              | None => (log, Raise AttributeError)
              | Some u =>
                  match PyStr.last_two (PyStr.split "|" u) with
                  | [d; w] =>
                      bing_loop q rest log
                        (ans ++ [mkResult (get a "href") title
                                          (Some (bing_cache_url q d w))])
                  | _ => (log, Raise ValueError)
                  end
              end
          end
      end
  end.

(** The part of [bing_search] after [root = query(...)]; [q] is the query
    string built from the terms. *)
Definition bing_search_results (q : string) (root : node) (log : list log_line)
    : list log_line * outcome (list Result) :=
  match bing_loop q (xpath_abs root bing_result_path) log [] with
  | (log, Ok ans) => (log_if_empty root ans log, Ok ans)
  | (log, Raise e) => (log, Raise e)
  end.

(** ** Google cache URLs scanned from the raw text (source lines 247-269) *)

Module Re.

(** The four characters [\x22] that the pattern [\\x22] matches: the
    JSON spelling of a double quote, left escaped in the page. *)
Definition esc_quote : string := "\x22".

Definition cache_host : string := "https://webcache.googleusercontent.com/".

Definition not_newline (c : ascii) : bool := negb (Ascii.eqb c PyStr.newline).

(** The lazy [.+?] once its first character is taken: stop at the first
    place where the closing [\x22] follows, take one more character
    otherwise; no newline is taken. *)
Fixpoint lazy_tail (s : string) : option string :=
  match s with
  | "" => None
  | String c s' =>
      if String.prefix esc_quote s then Some ""
      else if not_newline c then String c <$> lazy_tail s'
      else None
  end.

(** [pat] matched at the very start of [s]: group 1 when it does. *)
Definition pat_at (s : string) : option string :=
  if String.prefix (esc_quote +:+ cache_host) s then
    match PyStr.drop (String.length (esc_quote +:+ cache_host)) s with
    | "" => None
    | String c s' =>
        if not_newline c
        then (fun t => cache_host +:+ String c t) <$> lazy_tail s'
        else None
    end
  else None.

(** [pat.finditer(raw)]: group 1 of the matches, leftmost first, none
    overlapping another.  [skip] counts the characters of the last
    match still to be passed. *)
Fixpoint finditer_from (skip : nat) (s : string) : list string :=
  match s with
  | "" => []
  | String _ s' =>
      match skip with
      | S k => finditer_from k s'
      | O =>
          match pat_at s with
          | Some g =>
              g :: finditer_from
                     (String.length esc_quote + String.length g
                      + String.length esc_quote - 1) s'
          | None => finditer_from 0 s'
          end
      end
  end.

Definition finditer (raw : string) : list string := finditer_from 0 raw.

(** [int(m.group(1), 16)] for [upat] matched at the start of [s]: two
    backslashes, [u] and four hex digits. *)
Definition upat_at (s : string) : option nat :=
  match s with
  | String "\" (String "\" (String "u"
      (String a (String b (String c (String d _)))))) =>
      match Url.hexval a, Url.hexval b, Url.hexval c, Url.hexval d with
      | Some x3, Some x2, Some x1, Some x0 =>
          Some (4096 * x3 + 256 * x2 + 16 * x1 + x0)%nat
      | _, _, _, _ => None
      end
  | _ => None
  end.

(** [chr(cp)] for a code point below 65536, as UTF-8. *)
Definition chr (cp : nat) : string :=
  if (cp <? 128)%nat then String (ascii_of_nat cp) ""
  else if (cp <? 2048)%nat then
    String (ascii_of_nat (192 + cp / 64))
      (String (ascii_of_nat (128 + cp mod 64)) "")
  else
    String (ascii_of_nat (224 + cp / 4096))
      (String (ascii_of_nat (128 + (cp / 64) mod 64))
         (String (ascii_of_nat (128 + cp mod 64)) "")).

(** [upat.sub(urepl, s)] *)
Fixpoint upat_sub_from (skip : nat) (s : string) : string :=
  match s with
  | "" => ""
  | String c s' =>
      match skip with
      | S k => upat_sub_from k s'
      | O =>
          match upat_at s with
          | Some cp => chr cp +:+ upat_sub_from 6 s'
          | None => String c (upat_sub_from 0 s')
          end
      end
  end.

Definition upat_sub (s : string) : string := upat_sub_from 0 s.

(** The longest prefix of [s] whose characters all pass [ok], and what
    follows it. *)
Fixpoint span (ok : ascii -> bool) (s : string) : string * string :=
  match s with
  | "" => ("", "")
  | String c s' =>
      if ok c then let '(a, b) := span ok s' in (String c a, b)
      else ("", s)
  end.

(** [cache:([^:]+):(.+)] matched at the very start of [s]: groups 1 and
    2.  Both repetitions are greedy; the first can only stop at a colon,
    the second runs to the end of the line. *)
Definition cache_pat_at (s : string) : option (string * string) :=
  if String.prefix "cache:" s then
    let '(cache_id, after) := span (fun c => negb (Ascii.eqb c ":")) (PyStr.drop 6 s) in
    match cache_id, after with
    | String _ _, String _ after' =>
        match span not_newline after' with
        | (String c r, _) => Some (cache_id, String c r)
        | _ => None
        end
    | _, _ => None
    end
  else None.

(** [cache_pat.search(s)]: the leftmost match. *)
Fixpoint cache_pat_search (s : string) : option (string * string) :=
  match s with
  | "" => None
  | String _ s' =>
      match cache_pat_at s with
      | Some groups => Some groups
      | None => cache_pat_search s'
      end
  end.

End Re.

Section Google.

(** [urllib.parse.unquote] on text: never raises. *)
Variable unquote : string -> string.

(** The body of [for m in pat.finditer(raw)], over group 1 of the
    matches.  [cache_pat.search] returning [None] makes [m.group(1)]
    raise. *)
Fixpoint cache_urls_loop (matches : list string) (seen : gset string)
    (ans : gmap string string) : outcome (gmap string string) :=
  match matches with
  | [] => Ok ans
  | g :: rest =>
      let cache_url := Re.upat_sub g in
      match Re.cache_pat_search cache_url with
      | None => Raise AttributeError
      | Some (cache_id, src_url) =>
          if bool_decide (cache_id ∈ seen) then cache_urls_loop rest seen ans
          else
            let seen := {[cache_id]} ∪ seen in
            let src_url := default "" (head (PyStr.split "+" src_url)) in
            let src_url := unquote src_url in
            cache_urls_loop rest seen (<[src_url := cache_url]> ans)
      end
  end.

Definition google_extract_cache_urls (raw : string) : outcome (gmap string string) :=
  cache_urls_loop (Re.finditer raw) ∅ ∅.

(** One match as the loop body reads it: the cache identifier, the key
    under which it is filed and the cache URL. *)
Record cache_match : Type := mkCacheMatch {
  cm_id : string;
  cm_src : string;
  cm_url : string
}.

Definition read_match (g : string) : option cache_match :=
  let cache_url := Re.upat_sub g in
  match Re.cache_pat_search cache_url with
  | None => None
  | Some (cache_id, src_url) =>
      Some (mkCacheMatch cache_id
              (unquote (default "" (head (PyStr.split "+" src_url))))
              cache_url)
  end.

(** The words of the specification, "deduplicated by that identifier,
    first-occurrence-wins": a match stays when its identifier occurs in no
    earlier match. *)
Fixpoint firsts (earlier : list string) (ms : list cache_match) : list cache_match :=
  match ms with
  | [] => []
  | m :: rest =>
      (if bool_decide (cm_id m ∈ earlier) then [] else [m])
      ++ firsts (earlier ++ [cm_id m]) rest
  end.

(** [ans[src_url] = cache_url], one match after the other. *)
Definition file_matches (ans : gmap string string) (ms : list cache_match)
    : gmap string string :=
  foldl (fun (ans : gmap string string) m => <[cm_src m := cm_url m]> ans) ans ms.

(** *** Google result extraction (source lines 272-297) *)

(** [//*[@id="search"]//*[@id="rso"]//div[descendant::h3]] *)
Definition google_result_path : list step :=
  [mkStep Descendant (fun n => is_element n && attr_is "id" "search" n);
   mkStep Descendant (fun n => is_element n && attr_is "id" "rso" n);
   mkStep Descendant
     (fun n => named "div" n
               && match xpath_rel n [mkStep Descendant (named "h3")] with
                  | [] => false
                  | _ => true
                  end)].

(** [descendant::a[@href]] *)
Definition google_link_path : list step :=
  [mkStep Descendant (fun n => named "a" n && has_attr "href" n)].

(** [descendant::*[@role="menuitem"]//a[@class="fl"]] *)
Definition google_menu_path : list step :=
  [mkStep Descendant (fun n => is_element n && attr_is "role" "menuitem" n);
   mkStep Descendant (fun n => named "a" n && attr_is "class" "fl" n)].

(** The [for div in ...] loop: both element lookups are inside a [try]
    that logs and continues. *)
Fixpoint google_loop (cache_url_map : gmap string string) (divs : list node)
    (log : list log_line) (ans : list Result) : list log_line * list Result :=
  match divs with
  | [] => (log, ans)
  | div :: rest =>
      match xpath_rel div google_link_path with
      | [] => google_loop cache_url_map rest (log ++ [LogNoMainLink]) ans
      | a :: _ =>
          let title := tostring a in
          let src_url := get a "href" in
          match src_url ≫= (cache_url_map !!.) with
          | Some cached =>
              google_loop cache_url_map rest log
                (ans ++ [mkResult (get a "href") title (Some cached)])
          | None =>
              match xpath_rel div google_menu_path with
              | [] =>
                  google_loop cache_url_map rest
                    (log ++ [LogNoCachedPage title]) ans
              | c :: _ =>
                  google_loop cache_url_map rest log
                    (ans ++ [mkResult (get a "href") title (get c "href")])
              end
          end
      end
  end.

Definition google_parse_results (root : node) (raw : string)
    (log : list log_line) : list log_line * outcome (list Result) :=
  match google_extract_cache_urls raw with
  | Raise e => (log, Raise e)
  | Ok cache_url_map =>
      let '(log, ans) :=
        google_loop cache_url_map (xpath_abs root google_result_path) log [] in
      (log_if_empty root ans log, Ok ans)
  end.

End Google.

(** ** Sample pages *)

Definition html_page (page_title_text : string) (body : list node) : node :=
  Element "html" []
    [Element "head" [] [Element "title" [] [Text page_title_text]];
     Element "body" [] body].

Definition ddg_anchor (href text : string) : node :=
  Element "a" [("rel", "nofollow"); ("class", "result__a"); ("href", href)] [Text text].

Definition ddg_page (anchors : list node) : node :=
  html_page "calibre at DuckDuckGo"
    [Element "div" [("class", "results")]
       (map (fun a => Element "h2" [("class", "result__title")] [a]) anchors)].

(** A raw response with two escaped cache URLs that share the cache
    identifier [AbC]. *)
Definition google_raw_sample : string :=
  "a:\x22https://webcache.googleusercontent.com/search?q\\u003dcache:AbC:https://a.example/x+calibre\x22,"
  +:+ "b:\x22https://webcache.googleusercontent.com/search?q\\u003dcache:AbC:https://b.example/y+calibre\x22".

(** ** The search entry points (source lines 92-96, 117-121, 144-158,
       185-221, 305-315) *)

(** [quote_plus] on bytes: letters, digits and [_.-~] stay, a space
    becomes [+], any other byte becomes [%XX] in upper-case hex (Python
    3.7 and later; earlier releases escape [~] too). *)
Definition hex_digit (n : nat) : ascii :=
  ascii_of_nat (if (n <? 10)%nat then 48 + n else 55 + n).

Definition quote_plus_byte (c : ascii) : string :=
  let n := nat_of_ascii c in
  if Url.between 48 57 c || Url.between 65 90 c || Url.between 97 122 c
     || bool_decide (c ∈ ["_"; "."; "-"; "~"]%char)
  then String c ""
  else if Ascii.eqb c " " then "+"
  else String "%" (String (hex_digit (n / 16)) (String (hex_digit (n mod 16)) "")).

Fixpoint quote_term (x : string) : string :=
  match x with
  | "" => ""
  | String c x' => quote_plus_byte c +:+ quote_term x'
  end.

(** [terms = [quote_term(f(t)) for t in terms]], the optional [site:]
    term (quoted, not sanitized) and [q = '+'.join(terms)]. *)
Definition build_query (sanitize : string -> string) (terms : list string)
    (site : option string) : string :=
  PyStr.join "+"
    (map (fun t => quote_term (sanitize t)) terms
     ++ match site with
        | Some domain => [quote_term ("site:" +:+ domain)]
        | None => []
        end).

Section Search.

(** Capabilities supplied from outside this file: the decoder of raw
    bytes, the HTML parser, the JSON decoder and [urllib]'s [unquote].
    The browser is the [fetcher] passed in; the choice of user agent and
    headers is not modelled. *)
Variable xml_to_unicode : string -> string.
Variable parse_html : string -> outcome node.
Variable json_loads : string -> outcome pyval.
Variable unquote : string -> string.

Variable rt : runtime.

Open Scope Q_scope.

Definition wayback_machine_cached_url (url : string) (br : fetcher)
    (log : list log_line) (timeout : Q) (w : world)
    : world * list log_line * outcome (option string) :=
  let q := quote_term url in
  let '(w, data) :=
    query xml_to_unicode br ("https://archive.org/wayback/available?url=" +:+ q)
          "wayback" None (1 # 4) json_loads timeout false None w in
  match data with
  | Raise e => (w, log, Raise e)
  | Ok data =>
      let '(log, found) := wayback_machine_cached_url_of data log in
      (w, log, Ok found)
  end.

Definition ddg_search (terms : list string) (site : option string) (br : fetcher)
    (log : list log_line) (safe_search : bool) (dump_raw : option string)
    (timeout : Q) (w : world)
    : world * list log_line * outcome (list Result * string) :=
  let q := build_query ddg_term terms site in
  let url := "https://duckduckgo.com/html/?q=" +:+ q +:+ "&kp="
             +:+ (if safe_search then "1" else "-1") in
  let log := log ++ [LogMakingQuery "ddg" url] in
  let '(w, root) :=
    query xml_to_unicode br url "ddg" dump_raw 1 parse_html timeout false None w in
  match root with
  | Raise e => (w, log, Raise e)
  | Ok root =>
      let '(log, ans) := ddg_search_results rt root log in
      (w, log, try! ans <- ans; Ok (ans, url))
  end.

Definition bing_search (terms : list string) (site : option string) (br : fetcher)
    (log : list log_line) (dump_raw : option string) (timeout : Q) (w : world)
    : world * list log_line * outcome (list Result * string) :=
  let q := build_query bing_term terms site in
  let url := "https://www.bing.com/search?q=" +:+ q in
  let log := log ++ [LogMakingQuery "bing" url] in
  let '(w, root) :=
    query xml_to_unicode br url "bing" dump_raw 1 parse_html timeout false None w in
  match root with
  | Raise e => (w, log, Raise e)
  | Ok root =>
      let '(log, ans) := bing_search_results q root log in
      (w, log, try! ans <- ans; Ok (ans, url))
  end.

(** [r = []] is a fresh list for [save_raw=r.append]; [r[0]] is what the
    query put there. *)
Definition google_search (terms : list string) (site : option string) (br : fetcher)
    (log : list log_line) (dump_raw : option string) (timeout : Q) (w : world)
    : world * list log_line * outcome (list Result * string) :=
  let q := build_query google_term terms site in
  let url := "https://www.google.com/search?q=" +:+ q in
  let log := log ++ [LogMakingQuery "google" url] in
  let w := mkWorld (clock w) (last_visited w) (files w) [] (trace w) (disk w) in
  let '(w, root) :=
    query xml_to_unicode br url "google" dump_raw 1 parse_html timeout true None w in
  match root with
  | Raise e => (w, log, Raise e)
  | Ok root =>
      match saved_raw w with
      | [] => (w, log, Raise IndexError)
      | raw :: _ =>
          let '(log, ans) := google_parse_results unquote root raw log in
          (w, log, try! ans <- ans; Ok (ans, url))
      end
  end.

Close Scope Q_scope.

End Search.

(** ** Two fetches in a row *)

Open Scope Q_scope.

(** A transport that answers every request after half a second. *)
Definition steady_fetcher : fetcher :=
  fun _ _ _ => mkReply (1 # 2) (Ok "<html></html>").

(** A transport that fails after half a second. *)
Definition failing_fetcher : fetcher :=
  fun _ _ _ => mkReply (1 # 2) (Raise (TransportError "timed out")).

(** The caller is busy elsewhere for [d] seconds. *)
Definition pass_time (d : Q) (w : world) : world :=
  mkWorld (clock w + d) (last_visited w) (files w) (saved_raw w) (trace w) (disk w).

(** A process five seconds old that has fetched nothing yet, on a file
    system that takes every write. *)
Definition fresh_world : world := mkWorld 5 ∅ ∅ [] [] (fun _ _ => Dumped).

(** The same process on a file system where no file can be opened for
    writing. *)
Definition read_only_world : world :=
  mkWorld 5 ∅ ∅ [] []
    (fun _ _ => DumpRaises (OSError "No such file or directory") None).

(** Two DDG queries with the default [limit=1], the second issued a
    tenth of a second after the first returned. *)
Definition two_fetches : world :=
  let ask := query (fun raw => raw) steady_fetcher "https://duckduckgo.com/html/?q=calibre"
                   "ddg" None 1 (fun raw => Ok raw) 60 false None in
  let w := (ask fresh_world).1 in
  let w := pass_time (1 # 10) w in
  (ask w).1.

Definition event_red (e : event) : event :=
  match e with
  | Slept d => Slept (Qred d)
  | FetchBegan key t => FetchBegan key (Qred t)
  | FetchEnded key t => FetchEnded key (Qred t)
  end.

Close Scope Q_scope.

(** ** Sample result pages *)

Definition bing_page (items : list (list node)) : node :=
  html_page "calibre - Search"
    [Element "ol" [("id", "b_results")]
       (map (fun children => Element "li" [("class", "b_algo")] children) items)].

Definition bing_title (href text : string) : node :=
  Element "h2" [] [Element "a" [("href", href)] [Text text]].

Definition bing_attribution (u : string) : node :=
  Element "div" [("class", "b_caption")]
    [Element "div" [("class", "b_attribution"); ("u", u)] [Text "example.com"]].

Definition google_page (blocks : list node) : node :=
  html_page "calibre - Search"
    [Element "div" [("id", "search")]
       [Element "div" [("id", "rso")] blocks]].

Definition google_block (children : list node) : node :=
  Element "div" [("class", "g")] (Element "h3" [] [Text "heading"] :: children).

Definition google_menu (href : string) : node :=
  Element "span" [("role", "menuitem")]
    [Element "a" [("class", "fl"); ("href", href)] [Text "Cached"]].

(** A page without any result, as a block page would be. *)
Definition blocked_page : node :=
  html_page "Are you a robot?" [Element "p" [] [Text "Unusual traffic"]].

(** ** Percent-encoded text *)

(** Whether every character of [s] passes [ok]. *)
Fixpoint all_chars (ok : ascii -> bool) (s : string) : bool :=
  match s with
  | "" => true
  | String c s' => ok c && all_chars ok s'
  end.

(** The characters [quote_plus] lets through or produces: letters, digits,
    [_.-~], [+] and [%]. *)
Definition url_safe (c : ascii) : bool :=
  Url.between 48 57 c || Url.between 65 90 c || Url.between 97 122 c
  || bool_decide (c ∈ ["_"; "."; "-"; "~"; "+"; "%"]%char).

(** [unquote_plus] on bytes, as [parse_qsl] applies it to a name or value. *)
Definition unquote_plus (s : string) : string :=
  Url.unquote_to_bytes (PyStr.replace "+" " " s).

(** One unit of percent-encoded text: a single character other than [%],
    or [%] with two hex digits. *)
Definition escape_unit (s : string) : bool :=
  match s with
  | String c "" => negb (Ascii.eqb c "%")
  | String c (String a (String b "")) =>
      Ascii.eqb c "%"
      && match Url.hexval a, Url.hexval b with Some _, Some _ => true | _, _ => false end
  | _ => false
  end.

(** ** [encode_query] (source lines 50-52) *)

(** [quote_plus] on a byte string.  Python 2 does not count [~] among the
    safe characters and escapes it. *)
Definition quote_plus_byte_on (rt : runtime) (c : ascii) : string :=
  match rt with
  | Python3 => quote_plus_byte c
  | Python2 => if Ascii.eqb c "~" then "%7E" else quote_plus_byte c
  end.

Fixpoint quote_plus (rt : runtime) (x : string) : string :=
  match x with
  | "" => ""
  | String c x' => quote_plus_byte_on rt c +:+ quote_plus rt x'
  end.

(** [urlencode(q)] for a dictionary of byte strings, given as its items in
    iteration order. *)
Definition urlencode (rt : runtime) (q : list (string * string)) : string :=
  PyStr.join "&"
    (map (fun kv : string * string =>
            quote_plus rt kv.1 +:+ "=" +:+ quote_plus rt kv.2) q).





(** ** Invariants of the throttle *)

(** What writing [raw] to the dump file raises in the world [w], if
    anything; nothing when no dump file was asked for. *)
Definition dump_raises (dump_raw : option string) (raw : string) (w : world)
    : option exn :=
  match dump_raw with
  | Some path =>
      match disk w path raw with
      | Dumped => None
      | DumpRaises e _ => Some e
      end
  | None => None
  end.

(** The fetch function [query] calls, and what it makes of the answer:
    the browser's bytes go through [xml_to_unicode], the answer of a
    [simple_scraper] is taken as it is. *)
Definition fetch_of (br : fetcher) (simple_scraper : option fetcher) : fetcher :=
  match simple_scraper with
  | Some scraper => scraper
  | None => br
  end.

Definition decoder_of (xml_to_unicode : string -> string)
    (simple_scraper : option fetcher) : string -> string :=
  match simple_scraper with
  | Some _ => fun raw => raw
  | None => xml_to_unicode
  end.

(** No recorded visit lies in the future of the monotonic clock, which
    itself started at zero or later. *)
Definition timestamps_sane (w : world) : Prop :=
  (0 <= clock w)%Q
  /\ forall (k : string) (t : Q), last_visited w !! k = Some t -> (t <= clock w)%Q.

(** ** Shapes of what the extraction loops produce *)

(** What a result added by the Bing loop looks like: it has a link, and a
    cache URL built by [bing_cache_url] from the query. *)
Definition bing_result_shape (q : string) (r : Result) : Prop :=
  (exists href, url r = Some href)
  /\ exists d w, cached_url r = Some (bing_cache_url q d w).

(** The two lines the Google loop logs for a block it skips. *)
Definition google_skip_line (l : log_line) : Prop :=
  l = LogNoMainLink \/ exists title, l = LogNoCachedPage title.

(* ===================================================================== *)
(** * Part II: theorems                                                   *)
(* ===================================================================== *)

Example ddg_term_ex1 : ddg_term "News" = String PyStr.dquote "News" +:+ String PyStr.dquote "".
Proof. vm_compute. reflexivity. Qed.

Example bing_term_ex1 : bing_term "AND" = "and".
Proof. vm_compute. reflexivity. Qed.

Example resolve_url_ex1 :
  resolve_url "wayback:/web/20200101000000/http://example.com" = "http://example.com".
Proof. vm_compute. reflexivity. Qed.

Example resolve_url_ex2 : resolve_url "plainscheme:/some/path" = "plainscheme:/some/path".
Proof. vm_compute. reflexivity. Qed.

(** ** Query sanitizers *)

Section Sanitizers.

Import PyStr.

Lemma replace_dquote_is_without_quotes (t : string) :
  replace (String dquote "") "" t = without_quotes t.
Proof.
  unfold replace. induction t as [|c t IH]; [reflexivity|].
  cbn [replace_from without_quotes String.prefix String.length].
  destruct (ascii_dec dquote c) as [E|Hne].
  - rewrite <- E, Ascii.eqb_refl.
    replace (String.prefix "" t) with true by (destruct t; reflexivity).
    exact IH.
  - destruct (Ascii.eqb_spec c dquote) as [->|_]; [congruence|].
    now rewrite IH.
Qed.

Lemma quoted_not_operator (s : string) :
  bool_decide (String dquote s +:+ String dquote "" ∈ operators) = false.
Proof.
  apply bool_decide_eq_false. unfold operators.
  rewrite !elem_of_cons, elem_of_nil. cbn. intros [H|[H|[H|[]]]]; discriminate H.
Qed.

End Sanitizers.

(** C5, the part that fails as worded: the term [OR] written between
    double quotes contains embedded double quotes, and every sanitizer
    maps it to [or], which is not the term with its quotes removed. *)
Lemma sanitize_quoted_operator_counterexample :
  let t := String PyStr.dquote ("OR" +:+ String PyStr.dquote "") in
  PyStr.contains_char PyStr.dquote t = true
  /\ without_quotes t = "OR"
  /\ bing_term t <> without_quotes t
  /\ google_term t <> without_quotes t
  /\ ddg_term t <> without_quotes t.
Proof. cbv zeta. repeat split; vm_compute; congruence. Qed.

(** C5 (as amended): every sanitizer lower-cases a term equal to [OR],
    [AND] or [NOT]; on any term it first removes every double quote, and
    returns the stripped term unchanged unless the stripped term is itself
    an operator token, which is lower-cased; the DDG sanitizer instead
    wraps the stripped term in double quotes when its lower-cased form is
    [map] or [news]. *)
Theorem sanitize_term_spec (t : string) :
  let s := without_quotes t in
  (t ∈ operators ->
     ddg_term t = PyStr.lower t /\ bing_term t = PyStr.lower t
     /\ google_term t = PyStr.lower t)
  /\ bing_term t = (if bool_decide (s ∈ operators) then PyStr.lower s else s)
  /\ google_term t = (if bool_decide (s ∈ operators) then PyStr.lower s else s)
  /\ ddg_term t =
       (if bool_decide (PyStr.lower s ∈ ddg_keywords)
        then String PyStr.dquote s +:+ String PyStr.dquote ""
        else if bool_decide (s ∈ operators) then PyStr.lower s else s).
Proof.
  cbv zeta. split; [|repeat split].
  - unfold operators. rewrite !elem_of_cons, elem_of_nil.
    intros [->|[->|[->|[]]]]; repeat split; vm_compute; reflexivity.
  - unfold bing_term. now rewrite replace_dquote_is_without_quotes.
  - unfold google_term. now rewrite replace_dquote_is_without_quotes.
  - unfold ddg_term. rewrite replace_dquote_is_without_quotes.
    destruct (bool_decide (PyStr.lower (without_quotes t) ∈ ddg_keywords)); [|reflexivity].
    now rewrite quoted_not_operator.
Qed.

Lemma sanitize_term_spec_witness :
  "NOT" ∈ operators
  /\ ddg_term "NOT" = "not" /\ bing_term "NOT" = "not" /\ google_term "NOT" = "not".
Proof.
  split.
  - unfold operators. rewrite !elem_of_cons. right. right. left. reflexivity.
  - apply (proj1 (sanitize_term_spec "NOT")).
    unfold operators. rewrite !elem_of_cons. right. right. left. reflexivity.
Defined.

(** ** Cache-URL resolver *)

Section Resolver.

Import PyStr.

Lemma https_at_empty : https_at "" = false.
Proof. reflexivity. Qed.

Lemma drop_empty (n : nat) : drop n "" = "".
Proof. destruct n; reflexivity. Qed.

Lemma search_https_some (s : string) (i : nat) :
  search_https s = Some i <-> first_https_at i s.
Proof.
  revert i. induction s as [|c s IH]; intros i.
  - split; [discriminate|]. intros [H _]. cbn in H. lia.
  - cbn [search_https]. destruct (https_at (String c s)) eqn:E.
    + split.
      * intros [= <-]. repeat split; [cbn; lia|exact E|intros j Hj; lia].
      * intros (_ & _ & Hmin). destruct i as [|i]; [reflexivity|].
        specialize (Hmin 0%nat ltac:(lia)). cbn in Hmin. congruence.
    + destruct (search_https s) as [k|] eqn:Es; cbn.
      * split.
        -- intros [= <-]. destruct (proj1 (IH k) eq_refl) as (Hlen & Hat & Hmin).
           repeat split; [cbn; lia|exact Hat|].
           intros [|j] Hj; [exact E|]. apply Hmin. lia.
        -- intros (Hlen & Hat & Hmin). destruct i as [|i]; [cbn in Hat; congruence|].
           f_equal. assert (Some k = Some i) as [= ->]; [|reflexivity].
           apply IH. repeat split; [cbn in Hlen; lia|exact Hat|].
           intros j Hj. apply (Hmin (S j)). lia.
      * split; [discriminate|].
        intros (Hlen & Hat & Hmin). destruct i as [|i]; [cbn in Hat; congruence|].
        assert (None = Some i) as Hs; [|discriminate].
        apply IH. repeat split; [cbn in Hlen; lia|exact Hat|].
        intros j Hj. apply (Hmin (S j)). lia.
Qed.

Lemma search_https_none (s : string) :
  search_https s = None <-> no_https s.
Proof.
  induction s as [|c s IH].
  - split; [|reflexivity]. intros _ j. now rewrite drop_empty.
  - cbn [search_https]. split.
    + destruct (https_at (String c s)) eqn:E; [discriminate|].
      destruct (search_https s) eqn:Es; [discriminate|]. intros _ [|j]; [exact E|].
      cbn. now apply IH.
    + intros H. rewrite (H 0%nat : https_at (String c s) = false).
      assert (search_https s = None) as ->; [|reflexivity].
      apply IH. intros j. apply (H (S j)).
Qed.

(** [partition] hands out the text before the first separator. *)
Lemma partition_spec (sep : ascii) (s : string) :
  let '(a, m, b) := partition sep s in
  s = a +:+ m +:+ b
  /\ contains_char sep a = false
  /\ (m = String sep "" \/ (m = "" /\ b = "" /\ contains_char sep s = false)).
Proof.
  induction s as [|c s IH]; [cbn; intuition|].
  cbn [partition contains_char]. destruct (Ascii.eqb_spec c sep) as [->|Hne].
  - cbn. auto.
  - destruct (partition sep s) as [[a m] b]. destruct IH as (-> & Ha & Hm).
    cbn [contains_char]. destruct (Ascii.eqb_spec c sep); [congruence|].
    cbn [orb]. repeat split; [exact Ha|]. destruct Hm as [->|(-> & -> & Hs)]; [now left|].
    right. repeat split. exact Hs.
Qed.

End Resolver.

(** C8: [resolve_url] dispatches on the text before the first colon.  An
    input whose prefix is neither [bing] nor [wayback] comes back
    unchanged.  For [wayback:] followed by a remainder that starts with
    [/], the result is the remainder from its first [http:] or [https:]
    on when there is one, and the remainder behind
    [https://web.archive.org] when there is none. *)
Theorem resolve_url_spec :
  (forall url : string,
      (PyStr.partition ":" url).1.1 <> "bing" ->
      (PyStr.partition ":" url).1.1 <> "wayback" ->
      resolve_url url = url)
  /\ (forall (rest : string) (i : nat),
         PyStr.startswith rest "/" = true ->
         first_https_at i rest ->
         resolve_url ("wayback:" +:+ rest) = PyStr.drop i rest)
  /\ (forall rest : string,
         PyStr.startswith rest "/" = true ->
         no_https rest ->
         resolve_url ("wayback:" +:+ rest) = "https://web.archive.org" +:+ rest).
Proof.
  repeat split.
  - intros url Hb Hw. unfold resolve_url.
    destruct (PyStr.partition ":" url) as [[prefix m] rest]. cbn in Hb, Hw.
    now rewrite !bool_decide_eq_false_2.
  - intros rest i Hslash Hi. unfold resolve_url.
    change (PyStr.partition ":" ("wayback:" +:+ rest)) with ("wayback", ":", rest).
    cbv iota beta. rewrite bool_decide_eq_false_2 by discriminate.
    rewrite bool_decide_eq_true_2 by reflexivity.
    unfold wayback_url_processor. rewrite Hslash.
    apply search_https_some in Hi. now rewrite Hi.
  - intros rest Hslash Hno. unfold resolve_url.
    change (PyStr.partition ":" ("wayback:" +:+ rest)) with ("wayback", ":", rest).
    cbv iota beta. rewrite bool_decide_eq_false_2 by discriminate.
    rewrite bool_decide_eq_true_2 by reflexivity.
    unfold wayback_url_processor.
    rewrite Hslash. apply search_https_none in Hno. now rewrite Hno.
Qed.

Lemma resolve_url_spec_witness :
  resolve_url "plainscheme:/some/path" = "plainscheme:/some/path"
  /\ resolve_url "wayback:/web/20200101000000/http://example.com" = "http://example.com"
  /\ resolve_url "wayback:/web/2020/" = "https://web.archive.org/web/2020/".
Proof.
  destruct resolve_url_spec as (Hpass & Hhoist & Hhost).
  split; [|split].
  - apply Hpass; vm_compute; discriminate.
  - apply (Hhoist "/web/20200101000000/http://example.com" 20%nat); [reflexivity|].
    split; [vm_compute; lia|]. split; [reflexivity|].
    intros j Hj. do 20 (destruct j as [|j]; [reflexivity|]). lia.
  - apply (Hhost "/web/2020/"); [reflexivity|].
    intros j. do 10 (destruct j as [|j]; [reflexivity|]).
    change (https_at (PyStr.drop j "") = false). now rewrite drop_empty.
Defined.


(** ** Wayback availability lookup *)

Section Wayback.

Import PyStr.

Local Abbreviation https := (replace_from "http:" "https:").

Lemma prefix_empty (s : string) : String.prefix "" s = true.
Proof. destruct s; reflexivity. Qed.

Lemma replace_skip (old new : string) (k : nat) (s : string) :
  replace_from old new k s = replace_from old new 0 (drop k s).
Proof.
  revert k. induction s as [|c s IH]; intros [|k]; try reflexivity.
  cbn [replace_from drop]. apply IH.
Qed.



Lemma prefix_cons (x c : ascii) (p s : string) :
  String.prefix (String x p) (String c s) = Ascii.eqb x c && String.prefix p s.
Proof.
  cbn [String.prefix]. destruct (ascii_dec x c) as [->|Hne].
  - now rewrite Ascii.eqb_refl.
  - destruct (Ascii.eqb_spec x c); [congruence|reflexivity].
Qed.

Lemma app_cons (c : ascii) (a b : string) : String c a +:+ b = String c (a +:+ b).
Proof. reflexivity. Qed.





End Wayback.

Lemma wayback_available (data : pyval) (u : string) (log : list log_line) :
  available_snapshot data u ->
  wayback_machine_cached_url_of data log
  = (log, Some (PyStr.replace "http:" "https:" u)).
Proof.
  intros (top & snaps & closest & av & -> & Hs & Hc & Ha & Hav & Hu).
  unfold wayback_machine_cached_url_of, wayback_closest, Py.getitem. cbn [bind].
  rewrite Hs. cbn [bind]. rewrite Hc. cbn [bind]. rewrite Ha. cbn [bind].
  rewrite Hav, Hu. reflexivity.
Qed.

Lemma wayback_absent (data : pyval) (log : list log_line) :
  (forall u, ~ available_snapshot data u) ->
  wayback_machine_cached_url_of data log = (log ++ [LogWaybackResponse data], None).
Proof.
  intros Habs.
  unfold wayback_machine_cached_url_of, wayback_closest, Py.getitem.
  destruct data as [| | | | |items|top]; try reflexivity.
  destruct (Py.assoc "archived_snapshots" top) as [snaps|] eqn:Hs; [|reflexivity].
  destruct snaps as [| | | | |items|snaps]; try reflexivity.
  cbn [bind]. destruct (Py.assoc "closest" snaps) as [closest|] eqn:Hc; [|reflexivity].
  destruct closest as [| | | | |items|closest]; try reflexivity.
  cbn [bind]. destruct (Py.assoc "available" closest) as [av|] eqn:Ha; [|reflexivity].
  cbn [bind]. destruct (Py.truthy av) eqn:Hav; [|reflexivity].
  destruct (Py.assoc "url" closest) as [uv|] eqn:Hu; [|reflexivity].
  destruct uv as [| | | |u| |]; try reflexivity.
  exfalso. apply (Habs u). now exists top, snaps, closest, av.
Qed.

(** C7, as worded, fails where [available] is not [true] but still truthy:
    the number 1 is a wrong type for the flag, yet the lookup returns the
    snapshot URL and logs nothing. *)
Lemma wayback_truthy_available_counterexample :
  let data := snapshot_response (PyInt 1) (PyStr "http://web.archive.org/abc") in
  PyInt 1 <> PyBool true
  /\ wayback_machine_cached_url_of data [] = ([], Some "https://web.archive.org/abc").
Proof. split; [discriminate|reflexivity]. Qed.

(** C7 (as amended): when the response holds [archived_snapshots.closest]
    with a truthy [available] and a text [url], the lookup returns that URL
    with [http:] replaced by [https:] and logs nothing; on every other
    response it returns nothing and logs the decoded response once.  A
    failure inside the lookup (missing key, wrong type) never leaves it.
    The crafted response of the specification yields
    [https://web.archive.org/abc]. *)
Theorem wayback_lookup_spec (data : pyval) (log : list log_line) :
  (forall u, available_snapshot data u ->
     wayback_machine_cached_url_of data log
     = (log, Some (PyStr.replace "http:" "https:" u)))
  /\ ((forall u, ~ available_snapshot data u) ->
      wayback_machine_cached_url_of data log
      = (log ++ [LogWaybackResponse data], None))
  /\ (forall e, wayback_closest data = Raise e ->
      wayback_machine_cached_url_of data log
      = (log ++ [LogWaybackResponse data], None))
  /\ wayback_machine_cached_url_of
       (snapshot_response (PyBool true) (PyStr "http://web.archive.org/abc")) log
     = (log, Some "https://web.archive.org/abc").
Proof.
  split; [|split; [|split]].
  - intros u. apply wayback_available.
  - apply wayback_absent.
  - intros e He. unfold wayback_machine_cached_url_of. now rewrite He.
  - reflexivity.
Qed.

Lemma wayback_lookup_spec_witness :
  wayback_machine_cached_url_of
    (snapshot_response (PyStr "yes") (PyStr "http://a/http://b")) []
  = ([], Some "https://a/https://b")
  /\ wayback_machine_cached_url_of (snapshot_response (PyBool false) (PyStr "http://a")) []
     = ([LogWaybackResponse (snapshot_response (PyBool false) (PyStr "http://a"))], None)
  /\ wayback_machine_cached_url_of (PyList []) []
     = ([LogWaybackResponse (PyList [])], None).
Proof.
  split; [|split].
  - apply (proj1 (wayback_lookup_spec _ []) "http://a/http://b").
    exists [("archived_snapshots",
             PyDict [("closest", PyDict [("available", PyStr "yes");
                                         ("url", PyStr "http://a/http://b")])])],
           [("closest", PyDict [("available", PyStr "yes");
                                ("url", PyStr "http://a/http://b")])],
           [("available", PyStr "yes"); ("url", PyStr "http://a/http://b")],
           (PyStr "yes").
    repeat split; reflexivity.
  - apply (proj1 (proj2 (wayback_lookup_spec _ []))).
    intros u (top & snaps & closest & av & Hd & Hs & Hc & Ha & Hav & Hu).
    injection Hd as <-. cbn in Hs. injection Hs as <-. cbn in Hc. injection Hc as <-.
    cbn in Ha. injection Ha as <-. discriminate Hav.
  - apply (proj1 (proj2 (proj2 (wayback_lookup_spec (PyList []) []))) TypeError).
    reflexivity.
Defined.


(** ** DDG indirect links *)

Example ddg_href_ex1 :
  ddg_href Python2 "/l/?kh=-1&uddg=https%3A%2F%2Fexample.com%2Fa+b&x="
  = Ok "https://example.com/a b"
  /\ ddg_href Python3 "/l/?kh=-1&uddg=https%3A%2F%2Fexample.com%2Fa+b&x="
     = Raise KeyError.
Proof. split; vm_compute; reflexivity. Qed.

Example ddg_href_ex2 (rt : runtime) : ddg_href rt "/l/?kh=-1" = Raise KeyError.
Proof. destruct rt; vm_compute; reflexivity. Qed.

Example ddg_href_ex3 :
  ddg_href Python2 "/l/?uddg=&uddg=b" = Ok "b"
  /\ ddg_href Python2 "/l/?x=1;uddg=c" = Ok "c"
  /\ ddg_href Python2 "/l/?uddg=%FF" = Raise UnicodeError
  /\ ddg_href Python3 "/l/?uddg=%FF" = Raise UnicodeError
  /\ ddg_href Python3 "/l/?x=%C3%A9" = Raise UnicodeError.
Proof. repeat split; vm_compute; reflexivity. Qed.

Section DdgHref.

Lemma collect_from_lookup (name : string) (l : list (string * string)) :
  forall d : gmap Url.pykey (list string),
    foldl (fun (d : gmap Url.pykey (list string)) (nv : string * string) =>
             <[Url.KBytes nv.1 := default [] (d !! Url.KBytes nv.1) ++ [nv.2]]> d) d l
    !! Url.KBytes name
    = match d !! Url.KBytes name,
            (filter (fun nv : string * string => nv.1 = name) l).*2 with
      | None, [] => None
      | None, vs => Some vs
      | Some old, vs => Some (old ++ vs)
      end.
Proof.
  induction l as [|[n v] l IH]; intros d.
  - cbn. destruct (d !! Url.KBytes name); [now rewrite app_nil_r|reflexivity].
  - cbn [foldl]. rewrite IH. cbn [fst snd].
    rewrite filter_cons. cbn [fst]. destruct (decide (n = name)) as [->|Hne].
    + rewrite lookup_insert_eq. cbn [fmap list_fmap snd].
      destruct (d !! Url.KBytes name) as [old|]; cbn [default].
      * now rewrite <- app_assoc.
      * reflexivity.
    + rewrite lookup_insert_ne by congruence. reflexivity.
Qed.

(** No text key ever enters the dictionary. *)
Lemma collect_from_text (name : string) (l : list (string * string)) :
  forall d : gmap Url.pykey (list string),
    foldl (fun (d : gmap Url.pykey (list string)) (nv : string * string) =>
             <[Url.KBytes nv.1 := default [] (d !! Url.KBytes nv.1) ++ [nv.2]]> d) d l
    !! Url.KText name
    = d !! Url.KText name.
Proof.
  induction l as [|[n v] l IH]; intros d; [reflexivity|].
  cbn [foldl]. rewrite IH. now apply lookup_insert_ne.
Qed.

Lemma collect_bytes (rt : runtime) (name q : string) :
  Url.collect (Url.parse_qsl rt q) !! Url.KBytes name
  = match query_values rt name q with [] => None | vs => Some vs end.
Proof.
  unfold Url.collect, query_values.
  now rewrite (collect_from_lookup name (Url.parse_qsl rt q) ∅), lookup_empty.
Qed.

Lemma collect_text (name : string) (pairs : list (string * string)) :
  Url.collect pairs !! Url.KText name = None.
Proof. unfold Url.collect. now rewrite collect_from_text, lookup_empty. Qed.

Lemma ascii_is_utf8 (rt : runtime) (s : string) :
  Url.is_ascii s = true -> Url.utf8_valid rt s = true.
Proof.
  induction s as [|c s IH]; [reflexivity|].
  cbn [Url.is_ascii Url.utf8_valid]. intros [Hc Hs]%andb_prop.
  rewrite Hc. now apply IH.
Qed.

Lemma first_value_ascii (name : string) (l : list (string * string)) (v : string)
    (vs : list string) :
  forallb (fun nv : string * string => Url.is_ascii nv.1 && Url.is_ascii nv.2) l = true ->
  (filter (fun nv : string * string => nv.1 = name) l).*2 = v :: vs ->
  Url.is_ascii v = true.
Proof.
  induction l as [|[n x] l IH]; [discriminate 2|].
  cbn [forallb fst snd]. intros [[_ Hx]%andb_prop Hl]%andb_prop.
  rewrite filter_cons. cbn [fst]. destruct (decide (n = name)) as [_|_].
  - cbn. now intros [= <- _].
  - now apply IH.
Qed.

(** Python 2: the text key finds the bytes key, and the resolver does what
    the specification says, up to the decoding of the value. *)
Lemma ddg_href_python2 (href : string) :
  PyStr.startswith href "/" = true ->
  ddg_href Python2 href
  = match query_values Python2 "uddg" (PyStr.partition "?" href).2 with
    | [] => Raise KeyError
    | v :: _ => Url.decode_utf8 Python2 v
    end.
Proof.
  intros Hslash. unfold ddg_href. rewrite Hslash. cbv zeta.
  cbn [Url.parse_qs bind]. unfold Url.getitem_text.
  rewrite collect_text. change (Url.is_ascii "uddg") with true. cbv iota.
  rewrite collect_bytes.
  now destruct (query_values Python2 "uddg" _).
Qed.

Lemma ddg_href_python2_clean (href : string) :
  PyStr.startswith href "/" = true ->
  Url.ascii_clean Python2 (PyStr.partition "?" href).2 = true ->
  uddg_answer Python2 href.
Proof.
  intros Hslash Hclean. unfold uddg_answer. rewrite (ddg_href_python2 _ Hslash).
  destruct (query_values Python2 "uddg" _) as [|v vs] eqn:Hq; [reflexivity|].
  unfold Url.decode_utf8. rewrite ascii_is_utf8; [reflexivity|].
  apply andb_prop in Hclean as [_ Hfields].
  exact (first_value_ascii _ _ _ _ Hfields Hq).
Qed.

(** Python 3: the dictionary has bytes keys only, the subscript is text,
    and the lookup fails whatever the query string holds. *)
Lemma ddg_href_python3 (href : string) :
  PyStr.startswith href "/" = true ->
  ddg_href Python3 href
  = if Url.ascii_clean Python3 (PyStr.partition "?" href).2
    then Raise KeyError else Raise UnicodeError.
Proof.
  intros Hslash. unfold ddg_href. rewrite Hslash. cbv zeta.
  cbn [Url.parse_qs]. destruct (Url.ascii_clean Python3 _); [|reflexivity].
  cbn [bind]. unfold Url.getitem_text. now rewrite collect_text.
Qed.

Lemma ddg_href_passthrough (rt : runtime) (href : string) :
  PyStr.startswith href "/" = false -> ddg_href rt href = Ok href.
Proof. intros H. unfold ddg_href. now rewrite H. Qed.

Lemma ddg_loop_app (rt : runtime) (l1 l2 : list node) (ans : list Result) :
  ddg_loop rt (l1 ++ l2) ans = (try! mid <- ddg_loop rt l1 ans; ddg_loop rt l2 mid).
Proof.
  revert ans. induction l1 as [|a l1 IH]; intros ans; [reflexivity|].
  cbn [ddg_loop app]. destruct (get a "href") as [href|]; [|reflexivity].
  destruct (ddg_href rt href) as [u|e]; [|reflexivity]. cbn [bind]. apply IH.
Qed.

(** Whatever [ddg_href] raises for one anchor is raised by the whole loop:
    what was collected before is dropped, what follows is not looked at. *)
Lemma ddg_loop_raises (rt : runtime) (e : exn) (before after : list node) (a : node)
    (href : string) (ans ans' : list Result) :
  get a "href" = Some href ->
  ddg_loop rt before ans = Ok ans' ->
  ddg_href rt href = Raise e ->
  ddg_loop rt (before ++ a :: after) ans = Raise e.
Proof.
  intros Ha Hbefore He. rewrite ddg_loop_app, Hbefore. cbn [bind ddg_loop].
  now rewrite Ha, He.
Qed.

End DdgHref.

(** C9 (the code departs from the claim): on Python 3 the resolver never
    returns for an href that begins with [/].  [parse_qs] is given bytes
    and hands back a dictionary with bytes keys, the subscript ['uddg'] is
    text, and the lookup raises [KeyError] even when the parameter is
    there (or a Unicode error is raised before).  On Python 2, where the
    two kinds of string compare equal, the same href yields the decoded
    value.  A page with one such link makes the extraction raise. *)
Theorem ddg_href_text_key_misses :
  (forall rest : string,
      ddg_href Python3 ("/" +:+ rest) = Raise KeyError
      \/ ddg_href Python3 ("/" +:+ rest) = Raise UnicodeError)
  /\ ddg_href Python3 "/l/?kh=-1&uddg=https%3A%2F%2Fexample.com%2Fa" = Raise KeyError
  /\ ddg_href Python2 "/l/?kh=-1&uddg=https%3A%2F%2Fexample.com%2Fa"
     = Ok "https://example.com/a"
  /\ ddg_search_results Python3
       (ddg_page [ddg_anchor "/l/?kh=-1&uddg=https%3A%2F%2Fexample.com%2Fa" "A"]) []
     = ([], Raise KeyError).
Proof.
  split; [|repeat split; vm_compute; reflexivity].
  intros rest. rewrite ddg_href_python3.
  - destruct (Url.ascii_clean Python3 _); [now left|now right].
  - unfold PyStr.startswith. change ("/" +:+ rest) with (String "/" rest).
    now rewrite prefix_cons, prefix_empty.
Qed.

(** ** Google cache URLs *)

Section CacheUrls.

Variable unquote : string -> string.

Local Abbreviation read := (read_match unquote).

Lemma firsts_ext (ms : list cache_match) :
  forall e1 e2 : list string,
    (forall x, x ∈ e1 <-> x ∈ e2) -> firsts e1 ms = firsts e2 ms.
Proof.
  induction ms as [|m ms IH]; intros e1 e2 H; [reflexivity|].
  cbn [firsts]. rewrite (IH (e1 ++ [cm_id m]) (e2 ++ [cm_id m])).
  - destruct (decide (cm_id m ∈ e1)) as [Hin|Hout].
    + rewrite !bool_decide_eq_true_2; [reflexivity|now apply H|exact Hin].
    + rewrite !bool_decide_eq_false_2; [reflexivity| |exact Hout].
      intros Hin. apply Hout. now apply H.
  - intros x. rewrite !elem_of_app. now rewrite H.
Qed.

(** The loop of the source against the words of the specification: the
    set [seen] holds the identifiers of the matches passed so far. *)
Lemma cache_urls_loop_spec (matches : list string) :
  forall (seen : gset string) (earlier : list string) (ans : gmap string string),
    (forall x, x ∈ seen <-> x ∈ earlier) ->
    cache_urls_loop unquote matches seen ans
    = match mapM read matches with
      | None => Raise AttributeError
      | Some ms => Ok (file_matches ans (firsts earlier ms))
      end.
Proof.
  induction matches as [|g matches IH]; intros seen earlier ans Hseen; [reflexivity|].
  cbn [cache_urls_loop mapM].
  pose proof (eq_refl : read g = read_match unquote g) as Hr.
  unfold read_match in Hr at 2.
  destruct (Re.cache_pat_search (Re.upat_sub g)) as [[cache_id src_url]|];
    rewrite Hr; [|reflexivity].
  cbn [mbind option_bind].
  destruct (decide (cache_id ∈ seen)) as [Hin|Hout].
  - rewrite bool_decide_eq_true_2 by exact Hin.
    rewrite (IH seen (earlier ++ [cache_id]) ans).
    + destruct (mapM read matches) as [ms|]; [|reflexivity].
      cbn [mbind option_bind mret option_ret firsts cm_id].
      rewrite bool_decide_eq_true_2 by (now apply Hseen). reflexivity.
    + intros x. rewrite elem_of_app, list_elem_of_singleton, <- Hseen.
      split; [auto|]. intros [H| ->]; [exact H|exact Hin].
  - rewrite bool_decide_eq_false_2 by exact Hout.
    rewrite (IH ({[cache_id]} ∪ seen) (earlier ++ [cache_id])).
    + destruct (mapM read matches) as [ms|]; [|reflexivity].
      cbn [mbind option_bind mret option_ret firsts cm_id].
      rewrite bool_decide_eq_false_2 by (rewrite <- Hseen; exact Hout). reflexivity.
    + intros x. rewrite elem_of_union, elem_of_singleton, elem_of_app,
        list_elem_of_singleton, <- Hseen. tauto.
Qed.

Lemma firsts_delete (ms : list cache_match) :
  forall (e : list string) (j : nat) (m' : cache_match),
    ms !! j = Some m' ->
    (cm_id m' ∈ e
     \/ exists i m, (i < j)%nat /\ ms !! i = Some m /\ cm_id m = cm_id m') ->
    firsts e (delete j ms) = firsts e ms.
Proof.
  induction ms as [|m0 ms IH]; intros e j m' Hj Hdup; [discriminate|].
  destruct j as [|j].
  - injection Hj as ->. cbn [delete list_delete firsts].
    destruct Hdup as [Hin|(i & m & Hi & _)]; [|lia].
    rewrite bool_decide_eq_true_2 by exact Hin. cbn [app].
    apply firsts_ext. intros x. rewrite elem_of_app, list_elem_of_singleton.
    split; [auto|]. intros [H| ->]; [exact H|exact Hin].
  - cbn [delete list_delete firsts]. f_equal. apply (IH _ j m'); [exact Hj|].
    rewrite elem_of_app, list_elem_of_singleton.
    destruct Hdup as [Hin|(i & m & Hi & Hm & Hid)]; [auto|].
    destruct i as [|i].
    + injection Hm as ->. left. right. now symmetry.
    + right. exists i, m. repeat split; [lia|exact Hm|exact Hid].
Qed.

Lemma firsts_origin (ms : list cache_match) :
  forall (e : list string) (m : cache_match),
    m ∈ firsts e ms ->
    exists i, ms !! i = Some m
              /\ (cm_id m ∉ e)
              /\ forall j m', (j < i)%nat -> ms !! j = Some m' -> cm_id m' <> cm_id m.
Proof.
  induction ms as [|m0 ms IH]; intros e m Hm; [now apply elem_of_nil in Hm|].
  cbn [firsts] in Hm. apply elem_of_app in Hm as [Hm|Hm].
  - destruct (decide (cm_id m0 ∈ e)) as [Hin|Hout].
    + rewrite bool_decide_eq_true_2 in Hm by exact Hin. now apply elem_of_nil in Hm.
    + rewrite bool_decide_eq_false_2 in Hm by exact Hout.
      apply list_elem_of_singleton in Hm as ->. exists 0%nat.
      repeat split; [exact Hout|]. intros j m' Hj. lia.
  - apply IH in Hm as (i & Hi & Hout & Hmin). exists (S i).
    rewrite elem_of_app, list_elem_of_singleton in Hout.
    repeat split; [exact Hi|tauto|].
    intros [|j] m' Hj Hm'.
    + injection Hm' as <-. intros Heq. apply Hout. right. now symmetry.
    + apply (Hmin j m'); [lia|exact Hm'].
Qed.

Lemma file_matches_origin (ms : list cache_match) :
  forall (ans : gmap string string) (src cu : string),
    file_matches ans ms !! src = Some cu ->
    ans !! src = Some cu \/ exists m, m ∈ ms /\ cm_src m = src /\ cm_url m = cu.
Proof.
  induction ms as [|m ms IH]; intros ans src cu H; [now left|].
  cbn [file_matches foldl] in H. apply IH in H as [H|(m' & Hin & Hs & Hu)].
  - destruct (decide (cm_src m = src)) as [Heq|Hne].
    + rewrite Heq, lookup_insert_eq in H. injection H as <-.
      right. exists m. repeat split; [apply list_elem_of_here|exact Heq].
    + rewrite lookup_insert_ne in H by exact Hne. now left.
  - right. exists m'. repeat split; [now apply list_elem_of_further|exact Hs|exact Hu].
Qed.

Lemma file_matches_app (ans : gmap string string) (l1 l2 : list cache_match) :
  file_matches ans (l1 ++ l2) = file_matches (file_matches ans l1) l2.
Proof. unfold file_matches. apply foldl_app. Qed.

Lemma file_matches_other (ms : list cache_match) :
  forall (ans : gmap string string) (src : string),
    (forall m, m ∈ ms -> cm_src m <> src) ->
    file_matches ans ms !! src = ans !! src.
Proof.
  induction ms as [|m ms IH]; intros ans src H; [reflexivity|].
  cbn [file_matches foldl]. fold (file_matches (<[cm_src m := cm_url m]> ans) ms).
  rewrite IH.
  - apply lookup_insert_ne, H, list_elem_of_here.
  - intros m' Hm'. apply H. now apply list_elem_of_further.
Qed.

(** The first match with an identifier is the entry found under its key,
    unless a later match with another identifier is filed under the same
    key. *)
Lemma file_matches_keeps (ms : list cache_match) :
  forall (e : list string) (ans : gmap string string) (i : nat) (m : cache_match),
    ms !! i = Some m ->
    cm_id m ∉ e ->
    (forall j m', (j < i)%nat -> ms !! j = Some m' -> cm_id m' <> cm_id m) ->
    (forall j m', (i < j)%nat -> ms !! j = Some m' ->
                  cm_src m' = cm_src m -> cm_id m' = cm_id m) ->
    file_matches ans (firsts e ms) !! cm_src m = Some (cm_url m).
Proof.
  induction ms as [|m0 ms IH]; intros e ans i m Hi He Hbefore Hafter; [discriminate|].
  cbn [firsts]. rewrite file_matches_app. destruct i as [|i].
  - injection Hi as ->. rewrite bool_decide_eq_false_2 by exact He.
    rewrite file_matches_other.
    + cbn. apply lookup_insert_eq.
    + intros m' Hm' Hsrc. apply firsts_origin in Hm' as (j & Hj & Hout & _).
      apply Hout. rewrite elem_of_app, list_elem_of_singleton. right.
      apply (Hafter (S j) m'); [lia|exact Hj|exact Hsrc].
  - apply (IH _ _ i m Hi).
    + rewrite elem_of_app, list_elem_of_singleton. intros [H|H]; [now apply He|].
      apply (Hbefore 0%nat m0); [lia|reflexivity|now symmetry].
    + intros j m' Hj Hm'. apply (Hbefore (S j) m'); [lia|exact Hm'].
    + intros j m' Hj Hm'. apply (Hafter (S j) m'); [lia|exact Hm'].
Qed.

End CacheUrls.

(** C6: in the raw-text scan, when every escaped cache URL carries a cache
    identifier, the map returned is the one obtained by filing, in document
    order, only the matches whose identifier occurs in no earlier match.  A
    match that shares its identifier with an earlier one is discarded: the
    result is what it would be without that match.  Every entry of the map
    comes from a match that is the first with its identifier, and the first
    match with an identifier is the entry found under its original URL
    (as long as no later match with another identifier has the same
    original URL, which would overwrite it). *)
Theorem cache_urls_first_occurrence_wins
    (unquote : string -> string) (raw : string) (ms : list cache_match) :
  mapM (read_match unquote) (Re.finditer raw) = Some ms ->
  google_extract_cache_urls unquote raw = Ok (file_matches ∅ (firsts [] ms))
  /\ (forall (i j : nat) (m m' : cache_match),
        (i < j)%nat -> ms !! i = Some m -> ms !! j = Some m' ->
        cm_id m = cm_id m' ->
        google_extract_cache_urls unquote raw
        = Ok (file_matches ∅ (firsts [] (delete j ms))))
  /\ (forall src cu : string,
        file_matches ∅ (firsts [] ms) !! src = Some cu ->
        exists (i : nat) (m : cache_match),
          ms !! i = Some m /\ cm_src m = src /\ cm_url m = cu
          /\ forall j m', (j < i)%nat -> ms !! j = Some m' -> cm_id m' <> cm_id m)
  /\ (forall (i : nat) (m : cache_match),
        ms !! i = Some m ->
        (forall j m', (j < i)%nat -> ms !! j = Some m' -> cm_id m' <> cm_id m) ->
        (forall j m', (i < j)%nat -> ms !! j = Some m' ->
                      cm_src m' = cm_src m -> cm_id m' = cm_id m) ->
        file_matches ∅ (firsts [] ms) !! cm_src m = Some (cm_url m)).
Proof.
  intros Hms.
  assert (google_extract_cache_urls unquote raw = Ok (file_matches ∅ (firsts [] ms))) as Hok.
  { unfold google_extract_cache_urls.
    rewrite (cache_urls_loop_spec unquote (Re.finditer raw) ∅ [] ∅), Hms; [reflexivity|].
    intros x. rewrite elem_of_nil. set_solver. }
  split; [exact Hok|split; [|split]].
  - intros i j m m' Hij Hi Hj Hid. rewrite Hok. do 2 f_equal. symmetry.
    apply (firsts_delete ms [] j m' Hj). right. now exists i, m.
  - intros src cu H. apply file_matches_origin in H as [H|(m & Hin & Hs & Hu)].
    + now rewrite lookup_empty in H.
    + apply firsts_origin in Hin as (i & Hi & _ & Hmin). now exists i, m.
  - intros i m Hi Hbefore Hafter.
    apply (file_matches_keeps ms [] ∅ i m Hi); [apply not_elem_of_nil|exact Hbefore|exact Hafter].
Qed.

Lemma cache_urls_first_occurrence_wins_witness :
  google_extract_cache_urls (fun s => s) google_raw_sample
  = Ok {[ "https://a.example/x" :=
          "https://webcache.googleusercontent.com/search?q=cache:AbC:https://a.example/x+calibre" ]}.
Proof.
  pose (ms := [mkCacheMatch "AbC" "https://a.example/x"
                 "https://webcache.googleusercontent.com/search?q=cache:AbC:https://a.example/x+calibre";
               mkCacheMatch "AbC" "https://b.example/y"
                 "https://webcache.googleusercontent.com/search?q=cache:AbC:https://b.example/y+calibre"]).
  assert (mapM (read_match (fun s => s)) (Re.finditer google_raw_sample) = Some ms) as Hms
    by (vm_compute; reflexivity).
  destruct (cache_urls_first_occurrence_wins (fun s => s) google_raw_sample ms Hms)
    as (_ & Hdrop & _ & _).
  rewrite (Hdrop 0%nat 1%nat _ _ ltac:(lia) eq_refl eq_refl eq_refl).
  vm_compute. reflexivity.
Defined.

(** ** The throttled fetch *)

Section Throttle.

Open Scope Q_scope.

Context {A : Type}.
Variable xml_to_unicode : string -> string.

(** What the code sleeps: whenever it sleeps at all, the time already
    elapsed since the last visit, not what is left of the interval. *)
Lemma query_sleeps_elapsed (br : fetcher) (url key : string)
    (dump_raw : option string) (limit : Q) (parser : string -> outcome A)
    (timeout : Q) (save_raw : bool) (simple_scraper : option fetcher) (w : world) :
  let delta := clock w - default 0 (last_visited w !! key) in
  let w' := (query xml_to_unicode br url key dump_raw limit parser timeout
                   save_raw simple_scraper w).1 in
  Qltb delta limit && Qltb 0 delta = true ->
  exists took_by_fetch,
    trace w' = trace w ++ [Slept delta; FetchBegan key (clock w + delta);
                           FetchEnded key (clock w + delta + took_by_fetch)].
Proof.
  cbv zeta. intros Hcond. unfold query, dump, read_last_visited.
  cbn [clock last_visited files saved_raw trace disk]. rewrite Hcond.
  eexists.
  destruct (body (attempt _ _ _ _ _ _)); [destruct dump_raw|];
    cbn [sleep write_last_visited clock last_visited files saved_raw trace disk];
    try destruct (disk w _ _); try destruct save_raw;
    cbn [fst sleep write_last_visited clock last_visited files saved_raw trace disk];
    rewrite <- app_assoc; reflexivity.
Qed.

End Throttle.

(** C1 (the code departs from the claim): two DDG queries with the default
    interval of one second, the second issued a tenth of a second after the
    first fetch ended.  The second call sleeps the tenth of a second that
    has elapsed, not the nine tenths that remain, and its fetch begins two
    tenths of a second after the first one ended. *)
Theorem throttle_sleeps_elapsed_not_remaining :
  map event_red (trace two_fetches)
  = [FetchBegan "ddg" 5; FetchEnded "ddg" (11 # 2);
     Slept (1 # 10); FetchBegan "ddg" (57 # 10); FetchEnded "ddg" (31 # 5)]
  /\ exists ended slept began first last,
       trace two_fetches
       = [first; FetchEnded "ddg" ended; Slept slept; FetchBegan "ddg" began; last]
       /\ (slept == 1 # 10)%Q
       /\ ~ (slept == 1 - (1 # 10))%Q
       /\ (began - ended < 1)%Q.
Proof.
  split; [vm_compute; reflexivity|].
  eexists _, _, _, _, _. split; [vm_compute; reflexivity|].
  split; [reflexivity|]. split; [intros H; discriminate H|reflexivity].
Qed.

(** C4: whichever fetch function was injected (the browser, or the
    [simple_scraper] when one is passed), whatever it answers and whatever
    becomes of the dump file afterwards, when [query] is over the
    last-access time of the key is the clock reading at the end of the
    attempt, which is also the current time; and when the fetch function
    raised, [query] raises the same exception to its caller. *)
Theorem query_records_attempt {A : Type} (xml_to_unicode : string -> string)
    (br : fetcher) (url key : string) (dump_raw : option string) (limit : Q)
    (parser : string -> outcome A) (timeout : Q) (save_raw : bool)
    (simple_scraper : option fetcher) (w : world) :
  let began := fetch_begins limit key w in
  let fetch := match simple_scraper with
               | Some scraper => scraper
               | None => br
               end in
  let answer := fetch url timeout began in
  let result := query xml_to_unicode br url key dump_raw limit parser timeout
                      save_raw simple_scraper w in
  last_visited result.1 !! key = Some (began + took answer)%Q
  /\ clock result.1 = (began + took answer)%Q
  /\ forall e : exn, body answer = Raise e -> result.2 = Raise e.
Proof.
  cbv zeta.
  unfold query, dump, attempt, fetch_begins, throttle_sleep, read_last_visited.
  cbn [clock last_visited files saved_raw trace disk].
  destruct simple_scraper as [scraper|];
    destruct (Qltb _ limit && Qltb 0 _);
    cbn [sleep clock last_visited files saved_raw trace disk took body];
    match goal with
    | |- context [body (?f url timeout ?t)] =>
        destruct (body (f url timeout t)) as [raw|e0]
    end;
    cbn [bind write_last_visited clock last_visited files saved_raw trace disk];
    try destruct dump_raw as [path|];
    try match goal with
        | |- context [disk w ?path ?raw] => destruct (disk w path raw)
        end;
    try destruct save_raw;
    cbn [fst snd write_last_visited clock last_visited files saved_raw trace disk];
    rewrite lookup_insert_eq;
    (repeat split; [intros e0' H; congruence]).
Qed.

Lemma query_records_attempt_witness :
  (query (fun raw => raw) failing_fetcher "https://duckduckgo.com/html/?q=calibre"
         "ddg" None 1 (fun raw : string => Ok raw) 60 false None fresh_world).2
  = Raise (TransportError "timed out").
Proof.
  apply (proj2 (proj2 (query_records_attempt (A := string) (fun raw => raw)
                         failing_fetcher "https://duckduckgo.com/html/?q=calibre"
                         "ddg" None 1 (fun raw => Ok raw) 60 false None fresh_world))).
  reflexivity.
Defined.

Example query_failed_fetch_recorded :
  let result := query (fun raw => raw) failing_fetcher "https://duckduckgo.com/html/?q=calibre"
                      "ddg" None 1 (fun raw => Ok raw) 60 false None fresh_world in
  result.2 = Raise (TransportError "timed out")
  /\ last_visited result.1 !! "ddg" = Some (11 # 2)%Q.
Proof. vm_compute. split; reflexivity. Qed.

(** A dump file that cannot be opened: [query] raises out of [open],
    after the bookkeeping and before [save_raw] and the parser. *)
Example query_unwritable_dump :
  let result := query (fun raw => raw) steady_fetcher "https://duckduckgo.com/html/?q=calibre"
                      "ddg" (Some "/no-such-dir/dump.html") 1
                      (fun raw : string => Ok raw) 60 true None read_only_world in
  result.2 = Raise (OSError "No such file or directory")
  /\ saved_raw result.1 = []
  /\ files result.1 = ∅
  /\ last_visited result.1 !! "ddg" = Some (11 # 2)%Q.
Proof. vm_compute. repeat split; reflexivity. Qed.

(** ** Result extraction *)

Section Extraction.

Variable unquote : string -> string.

(** The Google loop cannot raise: it always hands back a log and a list. *)
Lemma google_parse_results_total (root : node) (raw : string) (log : list log_line)
    (cache_url_map : gmap string string) :
  google_extract_cache_urls unquote raw = Ok cache_url_map ->
  exists log' ans, google_parse_results unquote root raw log = (log', Ok ans).
Proof.
  intros H. unfold google_parse_results. rewrite H.
  destruct (google_loop _ _ _ _) as [log' ans]. now eexists _, _.
Qed.

(** A Google block without a link is skipped with a log line. *)
Lemma google_loop_no_link (cache_url_map : gmap string string) (div : node)
    (rest : list node) (log : list log_line) (ans : list Result) :
  xpath_rel div google_link_path = [] ->
  google_loop cache_url_map (div :: rest) log ans
  = google_loop cache_url_map rest (log ++ [LogNoMainLink]) ans.
Proof. intros H. cbn [google_loop]. now rewrite H. Qed.

(** A Bing item without a title link raises, whatever follows it. *)
Lemma bing_loop_no_link (q : string) (li : node) (rest : list node)
    (log : list log_line) (ans : list Result) :
  xpath_rel li bing_title_path = [] ->
  xpath_rel li bing_title_fallback_path = [] ->
  bing_loop q (li :: rest) log ans = (log, Raise IndexError).
Proof. intros H1 H2. cbn [bing_loop]. now rewrite H1, H2. Qed.

(** A Bing item with a title link and no attribution is skipped with a
    log line. *)
Lemma bing_loop_no_attribution (q : string) (li a : node) (links rest : list node)
    (log : list log_line) (ans : list Result) :
  xpath_rel li bing_title_path = a :: links ->
  xpath_rel li bing_attribution_path = [] ->
  bing_loop q (li :: rest) log ans
  = bing_loop q rest (log ++ [LogNoCachedPage (tostring a)]) ans.
Proof. intros H1 H2. cbn [bing_loop]. now rewrite H1, H2. Qed.

(** With no result element on the page, Bing and Google log the title
    once and return nothing. *)
Lemma bing_no_results (q : string) (root : node) (log : list log_line) :
  xpath_abs root bing_result_path = [] ->
  bing_search_results q root log = (log ++ [LogNoResults (page_title root)], Ok []).
Proof. intros H. unfold bing_search_results. now rewrite H. Qed.

Lemma google_no_results (root : node) (raw : string) (log : list log_line)
    (cache_url_map : gmap string string) :
  google_extract_cache_urls unquote raw = Ok cache_url_map ->
  xpath_abs root google_result_path = [] ->
  google_parse_results unquote root raw log
  = (log ++ [LogNoResults (page_title root)], Ok []).
Proof. intros H1 H2. unfold google_parse_results. now rewrite H1, H2. Qed.

End Extraction.

(** C2 (the code departs from the claim): on a Bing page whose first item
    has no title link, the extractor raises [IndexError] and the result
    that follows is lost, where the claim has the item skipped and logged.
    The Bing item that only lacks its attribution element is skipped and
    logged, and so is the Google block without a link. *)
Theorem bing_missing_link_raises :
  bing_search_results "calibre"
    (bing_page [[Element "p" [] [Text "An answer box"]];
                [bing_title "https://example.com/a" "A";
                 bing_attribution "0|5058|4678|abc"]]) []
  = ([], Raise IndexError)
  /\ bing_search_results "calibre"
       (bing_page [[bing_title "https://example.com/b" "B"];
                   [bing_title "https://example.com/a" "A";
                    bing_attribution "0|5058|4678|abc"]]) []
     = ([LogNoCachedPage "B"],
        Ok [mkResult (Some "https://example.com/a") "A"
              (Some "https://cc.bingj.com/cache.aspx?q=calibre&d=4678&mkt=en-US&setlang=en-US&w=abc")])
  /\ google_parse_results (fun s => s)
       (google_page [google_block [Text "no link"];
                     google_block [Element "a" [("href", "https://example.com/c")] [Text "C"];
                                   google_menu "https://cache.example/c"]]) "" []
     = ([LogNoMainLink],
        Ok [mkResult (Some "https://example.com/c") "C" (Some "https://cache.example/c")]).
Proof. repeat split; vm_compute; reflexivity. Qed.

(** C3 (the code departs from the claim): the DDG extraction never writes
    to the log, so on a page without any result it returns the empty list
    and logs no title, where Bing and Google on the same page log the
    title once. *)
Theorem ddg_empty_page_logs_nothing :
  (forall (rt : runtime) (root : node) (log : list log_line),
      (ddg_search_results rt root log).1 = log)
  /\ (forall rt : runtime, ddg_search_results rt blocked_page [] = ([], Ok []))
  /\ bing_search_results "calibre" blocked_page []
     = ([LogNoResults "Are you a robot?"], Ok [])
  /\ google_parse_results (fun s => s) blocked_page "" []
     = ([LogNoResults "Are you a robot?"], Ok []).
Proof. repeat split; vm_compute; reflexivity. Qed.


(** ** The search entry points *)

Example build_query_ex :
  build_query ddg_term ["heroes"; "AND"; "news"; "joe abercrombie"] (Some "www.amazon.com")
  = "heroes+and+%22news%22+joe+abercrombie+site%3Awww.amazon.com".
Proof. vm_compute. reflexivity. Qed.

(** A DDG search whose page carries a root-relative link without [uddg]
    raises [KeyError] out of the entry point; the fetch is on record. *)
Example ddg_search_aborts :
  let page := ddg_page [ddg_anchor "https://example.com/a" "A";
                        ddg_anchor "/l/?kh=-1" "B"] in
  let '(w, log, r) :=
    ddg_search (fun raw => raw) (fun _ => Ok page) Python3 ["calibre"] None steady_fetcher []
               false None 60 fresh_world in
  r = Raise KeyError
  /\ log = [LogMakingQuery "ddg" "https://duckduckgo.com/html/?q=calibre&kp=-1"]
  /\ last_visited w !! "ddg" = Some (11 # 2)%Q.
Proof. vm_compute. repeat split; reflexivity. Qed.

(* ===================================================================== *)
(** * Part III: further properties of the code                            *)
(* ===================================================================== *)

(** ** Percent-encoding *)

Lemma prefix_one (a c : ascii) (s : string) :
  String.prefix (String a "") (String c s) = Ascii.eqb a c.
Proof. rewrite prefix_cons, prefix_empty. apply andb_true_r. Qed.

Lemma replace_char_cons (a b c : ascii) (s : string) :
  PyStr.replace (String a "") (String b "") (String c s)
  = String (if Ascii.eqb a c then b else c) (PyStr.replace (String a "") (String b "") s).
Proof.
  unfold PyStr.replace. cbn [PyStr.replace_from]. rewrite prefix_one.
  destruct (Ascii.eqb a c); reflexivity.
Qed.

Lemma replace_char_app (a b : ascii) (s t : string) :
  PyStr.replace (String a "") (String b "") (s +:+ t)
  = PyStr.replace (String a "") (String b "") s
    +:+ PyStr.replace (String a "") (String b "") t.
Proof.
  induction s as [|c s IH]; [reflexivity|].
  change (String c s +:+ t) with (String c (s +:+ t)).
  rewrite !replace_char_cons, IH. reflexivity.
Qed.


Lemma unquote_unit (unit rest : string) :
  escape_unit unit = true ->
  Url.unquote_to_bytes (unit +:+ rest)
  = Url.unquote_to_bytes unit +:+ Url.unquote_to_bytes rest.
Proof.
  destruct unit as [|c [|a [|b [|]]]]; try discriminate.
  - cbn [escape_unit]. intros H. change (String c "" +:+ rest) with (String c rest).
    cbn [Url.unquote_to_bytes]. destruct (Ascii.eqb c "%"); [discriminate|reflexivity].
  - cbn [escape_unit]. intros [Hc Hh]%andb_prop.
    change (String c (String a (String b "")) +:+ rest)
      with (String c (String a (String b rest))).
    cbn [Url.unquote_to_bytes]. rewrite Hc.
    destruct (Url.hexval a), (Url.hexval b); try discriminate. reflexivity.
Qed.

Lemma quote_byte_unit (c : ascii) :
  escape_unit (PyStr.replace "+" " " (quote_plus_byte c)) = true
  /\ Url.unquote_to_bytes (PyStr.replace "+" " " (quote_plus_byte c)) = String c "".
Proof. destruct c as [[] [] [] [] [] [] [] []]; vm_compute; split; reflexivity. Qed.

Lemma quote_byte_safe (c : ascii) : all_chars url_safe (quote_plus_byte c) = true.
Proof. destruct c as [[] [] [] [] [] [] [] []]; vm_compute; reflexivity. Qed.

Lemma unquote_plus_quote_term (x : string) : unquote_plus (quote_term x) = x.
Proof.
  unfold unquote_plus. induction x as [|c x IH]; [reflexivity|].
  cbn [quote_term]. rewrite replace_char_app.
  destruct (quote_byte_unit c) as [Hu Hd].
  rewrite (unquote_unit _ _ Hu), Hd, IH. reflexivity.
Qed.

(** *** Character-wise facts *)

Lemma all_chars_app (ok : ascii -> bool) (s t : string) :
  all_chars ok (s +:+ t) = all_chars ok s && all_chars ok t.
Proof.
  induction s as [|c s IH]; [reflexivity|].
  change (String c s +:+ t) with (String c (s +:+ t)).
  cbn [all_chars]. rewrite IH. apply andb_assoc.
Qed.


Lemma all_chars_excludes (ok : ascii -> bool) (c : ascii) (s : string) :
  ok c = false -> all_chars ok s = true -> PyStr.contains_char c s = false.
Proof.
  intros Hc. induction s as [|d s IH]; [reflexivity|].
  cbn [all_chars PyStr.contains_char]. intros [Hd Hs]%andb_prop.
  rewrite (IH Hs), orb_false_r.
  destruct (Ascii.eqb_spec d c) as [->|_]; [congruence|reflexivity].
Qed.

Lemma contains_char_app (c : ascii) (s t : string) :
  PyStr.contains_char c (s +:+ t) = PyStr.contains_char c s || PyStr.contains_char c t.
Proof.
  induction s as [|d s IH]; [reflexivity|].
  change (String d s +:+ t) with (String d (s +:+ t)).
  cbn [PyStr.contains_char]. rewrite IH. apply orb_assoc.
Qed.


(** *** Splitting and partitioning *)

Lemma split_none (c : ascii) (s : string) :
  PyStr.contains_char c s = false -> PyStr.split c s = [s].
Proof.
  induction s as [|d s IH]; [reflexivity|].
  cbn [PyStr.contains_char PyStr.split]. intros [Hd Hs]%orb_false_elim.
  now rewrite Hd, (IH Hs).
Qed.

Lemma split_app (c : ascii) (a b : string) :
  PyStr.contains_char c a = false ->
  PyStr.split c (a +:+ String c b) = a :: PyStr.split c b.
Proof.
  induction a as [|d a IH]; intros H.
  - change ("" +:+ String c b) with (String c b). cbn [PyStr.split].
    now rewrite Ascii.eqb_refl.
  - change (String d a +:+ String c b) with (String d (a +:+ String c b)).
    cbn [PyStr.contains_char] in H. apply orb_false_elim in H as [Hd Ha].
    cbn [PyStr.split]. now rewrite Hd, (IH Ha).
Qed.

Lemma split_join (c : ascii) (f : string) (fs : list string) :
  Forall (fun x => PyStr.contains_char c x = false) (f :: fs) ->
  PyStr.split c (PyStr.join (String c "") (f :: fs)) = f :: fs.
Proof.
  revert f. induction fs as [|g fs IH]; intros f H.
  - cbn [PyStr.join]. apply split_none. now inversion H.
  - change (PyStr.join (String c "") (f :: g :: fs))
      with (f +:+ String c "" +:+ PyStr.join (String c "") (g :: fs)).
    change (String c "" +:+ PyStr.join (String c "") (g :: fs))
      with (String c (PyStr.join (String c "") (g :: fs))).
    inversion H as [|? ? Hf Hrest]; subst.
    now rewrite (split_app _ _ _ Hf), (IH g Hrest).
Qed.

Lemma partition_app (c : ascii) (a b : string) :
  PyStr.contains_char c a = false ->
  PyStr.partition c (a +:+ String c b) = (a, String c "", b).
Proof.
  induction a as [|d a IH]; intros H.
  - change ("" +:+ String c b) with (String c b). cbn [PyStr.partition].
    now rewrite Ascii.eqb_refl.
  - change (String d a +:+ String c b) with (String d (a +:+ String c b)).
    cbn [PyStr.contains_char] in H. apply orb_false_elim in H as [Hd Ha].
    cbn [PyStr.partition]. now rewrite Hd, (IH Ha).
Qed.

(** *** Quoting *)

Lemma quote_term_safe (x : string) : all_chars url_safe (quote_term x) = true.
Proof.
  induction x as [|c x IH]; [reflexivity|].
  cbn [quote_term]. now rewrite all_chars_app, quote_byte_safe, IH.
Qed.

Lemma quote_term_empty (x : string) : quote_term x = "" -> x = "".
Proof.
  destruct x as [|c x]; [reflexivity|]. cbn [quote_term]. intros H. exfalso.
  assert (quote_plus_byte c <> "") as Hne
    by (destruct c as [[] [] [] [] [] [] [] []]; vm_compute; discriminate).
  destruct (quote_plus_byte c); [congruence|discriminate H].
Qed.

Lemma quote_plus_python3 (x : string) : quote_plus Python3 x = quote_term x.
Proof. induction x as [|c x IH]; [reflexivity|]. cbn. now rewrite IH. Qed.

Lemma quote_byte_on_unit (rt : runtime) (c : ascii) :
  escape_unit (PyStr.replace "+" " " (quote_plus_byte_on rt c)) = true
  /\ Url.unquote_to_bytes (PyStr.replace "+" " " (quote_plus_byte_on rt c)) = String c ""
  /\ all_chars url_safe (quote_plus_byte_on rt c) = true
  /\ quote_plus_byte_on rt c <> "".
Proof.
  destruct rt; destruct c as [[] [] [] [] [] [] [] []]; vm_compute;
    repeat split; (reflexivity || discriminate).
Qed.

Lemma unquote_plus_quote_plus (rt : runtime) (x : string) :
  unquote_plus (quote_plus rt x) = x.
Proof.
  unfold unquote_plus. induction x as [|c x IH]; [reflexivity|].
  cbn [quote_plus]. rewrite replace_char_app.
  destruct (quote_byte_on_unit rt c) as (Hu & Hd & _).
  rewrite (unquote_unit _ _ Hu), Hd, IH. reflexivity.
Qed.

Lemma quote_plus_safe (rt : runtime) (x : string) :
  all_chars url_safe (quote_plus rt x) = true.
Proof.
  induction x as [|c x IH]; [reflexivity|].
  cbn [quote_plus]. rewrite all_chars_app, IH.
  now destruct (quote_byte_on_unit rt c) as (_ & _ & -> & _).
Qed.

Lemma quote_plus_empty (rt : runtime) (x : string) : quote_plus rt x = "" -> x = "".
Proof.
  destruct x as [|c x]; [reflexivity|]. cbn [quote_plus]. intros H. exfalso.
  destruct (quote_byte_on_unit rt c) as (_ & _ & _ & Hne).
  destruct (quote_plus_byte_on rt c); [congruence|discriminate H].
Qed.

(** *** What quoting guarantees *)

Lemma join_safe (ok : ascii -> bool) (sep : string) (parts : list string) :
  all_chars ok sep = true ->
  Forall (fun p => all_chars ok p = true) parts ->
  all_chars ok (PyStr.join sep parts) = true.
Proof.
  intros Hsep. induction parts as [|p parts IH]; intros H; [reflexivity|].
  inversion H as [|? ? Hp Hrest]; subst. destruct parts as [|p' parts]; [exact Hp|].
  change (PyStr.join sep (p :: p' :: parts))
    with (p +:+ sep +:+ PyStr.join sep (p' :: parts)).
  now rewrite !all_chars_app, Hp, Hsep, (IH Hrest).
Qed.

(** X1: what [quote_term] writes, percent-decoding reads back: turning
    every [+] into a space and decoding the percent escapes restores the
    term, so no two terms are quoted alike. *)
Theorem quote_term_round_trip (x y : string) :
  unquote_plus (quote_term x) = x
  /\ (quote_term x = quote_term y <-> x = y).
Proof.
  split; [apply unquote_plus_quote_term|]. split; [|now intros ->].
  intros H. rewrite <- (unquote_plus_quote_term x), <- (unquote_plus_quote_term y).
  now rewrite H.
Qed.

(** X2: the query string the three searches put into their URL holds
    nothing but letters, digits and [_.-~+%], whatever the terms, the site
    and the sanitizer: no term can add [&], [=], [#], a space or a quote
    to the URL. *)
Theorem build_query_url_safe (sanitize : string -> string) (terms : list string)
    (site : option string) :
  all_chars url_safe (build_query sanitize terms site) = true
  /\ PyStr.contains_char "&" (build_query sanitize terms site) = false
  /\ PyStr.contains_char "=" (build_query sanitize terms site) = false
  /\ PyStr.contains_char "#" (build_query sanitize terms site) = false
  /\ PyStr.contains_char " " (build_query sanitize terms site) = false
  /\ PyStr.contains_char PyStr.dquote (build_query sanitize terms site) = false.
Proof.
  assert (all_chars url_safe (build_query sanitize terms site) = true) as H.
  { unfold build_query. apply join_safe; [reflexivity|].
    apply Forall_app. split.
    - apply Forall_forall. intros p [t [-> _]]%list_elem_of_fmap. apply quote_term_safe.
    - destruct site; repeat constructor. apply quote_term_safe. }
  split; [exact H|].
  repeat split; apply all_chars_excludes with (ok := url_safe);
    (reflexivity || exact H).
Qed.

Lemma parse_field_encoded (rt : runtime) (k v : string) :
  v <> "" ->
  Url.parse_field (quote_plus rt k +:+ "=" +:+ quote_plus rt v) = Some (k, v).
Proof.
  intros Hv. unfold Url.parse_field.
  change ("=" +:+ quote_plus rt v) with (String "=" (quote_plus rt v)).
  rewrite partition_app
    by (apply (all_chars_excludes url_safe); [reflexivity|apply quote_plus_safe]).
  rewrite bool_decide_eq_false_2 by (intros H; now apply quote_plus_empty in H).
  fold (unquote_plus (quote_plus rt k)). fold (unquote_plus (quote_plus rt v)).
  now rewrite !unquote_plus_quote_plus.
Qed.

Lemma encoded_field_free (rt : runtime) (c : ascii) (kv : string * string) :
  url_safe c = false -> c <> "="%char ->
  PyStr.contains_char c (quote_plus rt kv.1 +:+ "=" +:+ quote_plus rt kv.2) = false.
Proof.
  intros Hc Hne. rewrite !contains_char_app.
  rewrite !(all_chars_excludes url_safe c _ Hc (quote_plus_safe rt _)).
  change (PyStr.contains_char c "=") with (Ascii.eqb "=" c || false).
  destruct (Ascii.eqb_spec "=" c); [congruence|reflexivity].
Qed.

Lemma parse_qsl_urlencode (rt reader : runtime) (q : list (string * string)) :
  Forall (fun kv : string * string => kv.2 <> "") q ->
  Url.parse_qsl reader (urlencode rt q) = q.
Proof.
  intros Hq. unfold Url.parse_qsl, urlencode.
  set (enc := fun kv : string * string =>
                quote_plus rt kv.1 +:+ "=" +:+ quote_plus rt kv.2).
  assert (Url.fields reader (PyStr.join "&" (map enc q)) = map enc q
          \/ q = []) as Hfields.
  { destruct q as [|kv q]; [now right|left].
    assert (forall (c : ascii) (l : list (string * string)),
               url_safe c = false -> c <> "="%char ->
               Forall (fun x => PyStr.contains_char c x = false) (map enc l)) as Hfree.
    { intros c l Hc Hne. apply Forall_map, Forall_forall. intros x _.
      now apply encoded_field_free. }
    unfold Url.fields. cbn [map].
    rewrite split_join by (apply (Hfree "&"%char (kv :: q)); easy).
    destruct reader; [|reflexivity].
    change (enc kv :: map enc q) with (map enc (kv :: q)).
    generalize (kv :: q). intros l. induction l as [|x l IH]; [reflexivity|].
    cbn [map concat]. rewrite split_none by now apply encoded_field_free.
    cbn [app]. f_equal. exact IH. }
  destruct Hfields as [E|E]; [rewrite E|subst q; now destruct reader].
  clear E. induction Hq as [|[k v] l Hv Hl IH]; [reflexivity|].
  cbn [map omap list_omap]. unfold enc at 1. cbn [fst snd].
  rewrite (parse_field_encoded rt k v Hv). f_equal. exact IH.
Qed.



(** ** The throttled fetch, continued *)

Section ThrottleMore.

Open Scope Q_scope.

Context {A : Type}.
Variable xml_to_unicode : string -> string.

Lemma Qltb_lt (a b : Q) : Qltb a b = true <-> a < b.
Proof.
  unfold Qltb. rewrite negb_true_iff. split.
  - intros H. apply Qnot_le_lt. intros Hle. apply Qle_bool_iff in Hle. congruence.
  - intros H. destruct (Qle_bool b a) eqn:E; [|reflexivity].
    apply Qle_bool_iff in E. exfalso. exact (Qlt_not_le _ _ H E).
Qed.

(** The world [query] leaves behind, field by field. *)
Lemma query_world (br : fetcher) (url key : string) (dump_raw : option string)
    (limit : Q) (parser : string -> outcome A) (timeout : Q) (save_raw : bool)
    (simple_scraper : option fetcher) (w : world) :
  let began := fetch_begins limit key w in
  let rep := attempt xml_to_unicode br simple_scraper url timeout began in
  let w' := (query xml_to_unicode br url key dump_raw limit parser timeout
                   save_raw simple_scraper w).1 in
  clock w' = began + took rep
  /\ last_visited w'
     = <[key := began + took rep]>
         (<[key := default 0 (last_visited w !! key)]> (last_visited w))
  /\ files w' = match body rep, dump_raw with
                | Ok raw, Some path =>
                    match disk w path raw with
                    | Dumped => <[path := raw]> (files w)
                    | DumpRaises _ (Some text) => <[path := text]> (files w)
                    | DumpRaises _ None => files w
                    end
                | _, _ => files w
                end
  /\ saved_raw w' = match body rep with
                    | Ok raw =>
                        match dump_raises dump_raw raw w with
                        | None => if save_raw then saved_raw w ++ [raw] else saved_raw w
                        | Some _ => saved_raw w
                        end
                    | Raise _ => saved_raw w
                    end
  /\ trace w' = trace w
                ++ match throttle_sleep limit key w with
                   | Some d => [Slept d]
                   | None => []
                   end
                ++ [FetchBegan key began; FetchEnded key (began + took rep)].
Proof.
  cbv zeta.
  unfold query, dump, dump_raises, fetch_begins, throttle_sleep, read_last_visited.
  cbn [clock last_visited files saved_raw trace disk].
  destruct (Qltb _ limit && Qltb 0 _);
    cbn [sleep clock last_visited files saved_raw trace disk];
    destruct (body (attempt _ _ _ _ _ _)) as [raw|e];
    try destruct dump_raw as [path|];
    cbn [write_last_visited clock last_visited files saved_raw trace disk];
    try (destruct (disk w path raw) as [|e remains]; [|destruct remains]);
    try destruct save_raw;
    cbn [fst snd write_last_visited clock last_visited files saved_raw trace disk app];
    rewrite <- ?app_assoc; repeat split; reflexivity.
Qed.

(** What [query] hands back: the exception of the fetch, else the one of
    the dump, else what the parser makes of the text. *)
Lemma query_result (br : fetcher) (url key : string) (dump_raw : option string)
    (limit : Q) (parser : string -> outcome A) (timeout : Q) (save_raw : bool)
    (simple_scraper : option fetcher) (w : world) :
  (query xml_to_unicode br url key dump_raw limit parser timeout save_raw
         simple_scraper w).2
  = match body (attempt xml_to_unicode br simple_scraper url timeout
                        (fetch_begins limit key w)) with
    | Ok raw =>
        match dump_raises dump_raw raw w with
        | None => parser raw
        | Some e => Raise e
        end
    | Raise e => Raise e
    end.
Proof.
  unfold query, dump, dump_raises, fetch_begins, throttle_sleep, read_last_visited.
  cbn [clock last_visited files saved_raw trace disk].
  destruct (Qltb _ limit && Qltb 0 _);
    cbn [sleep clock last_visited files saved_raw trace disk];
    destruct (body (attempt _ _ _ _ _ _)) as [raw|e];
    try destruct dump_raw as [path|];
    cbn [write_last_visited clock last_visited files saved_raw trace disk];
    try destruct (disk w path raw) as [|e remains];
    reflexivity.
Qed.

(** The attempt in terms of the fetch function that was injected. *)
Lemma attempt_fetch (br : fetcher) (simple_scraper : option fetcher)
    (url : string) (timeout began : Q) :
  took (attempt xml_to_unicode br simple_scraper url timeout began)
  = took (fetch_of br simple_scraper url timeout began)
  /\ body (attempt xml_to_unicode br simple_scraper url timeout began)
     = match body (fetch_of br simple_scraper url timeout began) with
       | Ok fetched => Ok (decoder_of xml_to_unicode simple_scraper fetched)
       | Raise e => Raise e
       end.
Proof.
  unfold attempt, fetch_of, decoder_of. destruct simple_scraper as [scraper|].
  - split; [reflexivity|]. now destruct (body (scraper url timeout began)).
  - cbn [took body]. split; [reflexivity|]. now destruct (body (br url timeout began)).
Qed.


End ThrottleMore.

Lemma throttle_sleep_bounds (limit : Q) (key : string) (w : world) (d : Q) :
  throttle_sleep limit key w = Some d -> (0 < d /\ d < limit)%Q.
Proof.
  unfold throttle_sleep.
  destruct (Qltb _ limit && Qltb 0 _) eqn:E; [|discriminate].
  intros [= <-]. apply andb_prop in E as [H1 H2].
  split; now apply Qltb_lt.
Qed.

Lemma fetch_begins_later (limit : Q) (key : string) (w : world) :
  (clock w <= fetch_begins limit key w)%Q.
Proof.
  unfold fetch_begins. destruct (throttle_sleep limit key w) as [d|] eqn:E.
  - apply throttle_sleep_bounds in E as [Hd _]. lra.
  - lra.
Qed.

(** X4: [query] sleeps at most once before the fetch, and never for as
    long as [limit]: every sleep it makes is positive and shorter than the
    interval.  With an interval of zero or less it never sleeps. *)
Theorem query_sleep_bounded {A : Type} (xml_to_unicode : string -> string)
    (br : fetcher) (url key : string) (dump_raw : option string) (limit : Q)
    (parser : string -> outcome A) (timeout : Q) (save_raw : bool)
    (simple_scraper : option fetcher) (w : world) :
  let w' := (query xml_to_unicode br url key dump_raw limit parser timeout
                   save_raw simple_scraper w).1 in
  exists (slept : list Q) (began ended : Q),
    trace w' = trace w ++ map Slept slept ++ [FetchBegan key began; FetchEnded key ended]
    /\ (length slept <= 1)%nat
    /\ (forall d, d ∈ slept -> (0 < d /\ d < limit)%Q)
    /\ ((limit <= 0)%Q -> slept = []).
Proof.
  cbv zeta.
  destruct (query_world xml_to_unicode br url key dump_raw limit parser timeout
              save_raw simple_scraper w) as (_ & _ & _ & _ & Htrace).
  cbv zeta in Htrace. rewrite Htrace.
  destruct (throttle_sleep limit key w) as [d|] eqn:E.
  - exists [d]. eexists _, _. split; [reflexivity|]. split; [cbn; lia|].
    apply throttle_sleep_bounds in E. split.
    + intros d' ->%list_elem_of_singleton. exact E.
    + intros Hl. exfalso. lra.
  - exists []. eexists _, _. split; [reflexivity|]. split; [cbn; lia|].
    split; [|reflexivity]. intros d' Hd'. now apply elem_of_nil in Hd'.
Qed.

(** X5: a query under one key leaves the last-access time of every other
    key as it was: throttling one destination never delays another. *)
Theorem query_other_keys_untouched {A : Type} (xml_to_unicode : string -> string)
    (br : fetcher) (url key : string) (dump_raw : option string) (limit : Q)
    (parser : string -> outcome A) (timeout : Q) (save_raw : bool)
    (simple_scraper : option fetcher) (w : world) (other : string) :
  other <> key ->
  last_visited (query xml_to_unicode br url key dump_raw limit parser timeout
                      save_raw simple_scraper w).1 !! other
  = last_visited w !! other.
Proof.
  intros Hne.
  destruct (query_world xml_to_unicode br url key dump_raw limit parser timeout
              save_raw simple_scraper w) as (_ & Hlv & _).
  cbv zeta in Hlv. rewrite Hlv.
  now rewrite !lookup_insert_ne by congruence.
Qed.

Lemma query_other_keys_untouched_witness :
  last_visited two_fetches !! "bing" = None.
Proof.
  unfold two_fetches. cbv zeta.
  rewrite (query_other_keys_untouched (A := string) (fun raw => raw) steady_fetcher
             "https://duckduckgo.com/html/?q=calibre" "ddg" None 1 (fun raw => Ok raw)
             60 false None _ "bing") by discriminate.
  reflexivity.
Defined.

(** X6: as long as the fetch takes no negative time, [query] keeps the
    recorded visits out of the future of the clock, and moves the time
    recorded for its key forward or leaves it where it was, never back. *)
Theorem query_keeps_timestamps_sane {A : Type} (xml_to_unicode : string -> string)
    (br : fetcher) (url key : string) (dump_raw : option string) (limit : Q)
    (parser : string -> outcome A) (timeout : Q) (save_raw : bool)
    (simple_scraper : option fetcher) (w : world) :
  let rep := attempt xml_to_unicode br simple_scraper url timeout
                     (fetch_begins limit key w) in
  let w' := (query xml_to_unicode br url key dump_raw limit parser timeout
                   save_raw simple_scraper w).1 in
  timestamps_sane w ->
  (0 <= took rep)%Q ->
  timestamps_sane w'
  /\ exists t, last_visited w' !! key = Some t
               /\ (default 0%Q (last_visited w !! key) <= t)%Q.
Proof.
  cbv zeta. intros [Hclock Hpast] Htook.
  destruct (query_world xml_to_unicode br url key dump_raw limit parser timeout
              save_raw simple_scraper w) as (Hc & Hlv & _).
  cbv zeta in Hc, Hlv.
  pose proof (fetch_begins_later limit key w) as Hlater.
  assert (default 0%Q (last_visited w !! key) <= clock w)%Q as Hold.
  { destruct (last_visited w !! key) as [t|] eqn:E; [exact (Hpast _ _ E)|exact Hclock]. }
  split; [split|].
  - rewrite Hc. lra.
  - intros k t. rewrite Hlv, Hc. destruct (decide (k = key)) as [->|Hne].
    + rewrite lookup_insert_eq. intros [= <-]. lra.
    + rewrite !lookup_insert_ne by congruence. intros Hk. apply Hpast in Hk. lra.
  - eexists. rewrite Hlv, lookup_insert_eq. split; [reflexivity|]. lra.
Qed.

Lemma query_keeps_timestamps_sane_witness :
  timestamps_sane
    (query (fun raw => raw) steady_fetcher "https://duckduckgo.com/html/?q=calibre"
           "ddg" None 1 (fun raw : string => Ok raw) 60 false None fresh_world).1.
Proof.
  apply (query_keeps_timestamps_sane (A := string) (fun raw => raw) steady_fetcher
           "https://duckduckgo.com/html/?q=calibre" "ddg" None 1 (fun raw => Ok raw)
           60 false None fresh_world).
  - split; [discriminate|]. intros k t H. cbn in H. rewrite lookup_empty in H. discriminate H.
  - discriminate.
Defined.

(** X7: what [query] does with the text once the injected fetch function
    has answered, when a dump file and a [save_raw] callback are given.
    If the file can be written, the text is in the file and has been
    handed to [save_raw] before the parser is called: both are done also
    when the parser raises, and the result is the parser's.  If [open] or
    [write] raises, [query] raises that exception, nothing is saved and
    the parser's answer plays no part.  If the fetch function raises,
    [query] raises its exception, no file is touched and nothing is
    saved. *)
Theorem query_raw_kept_before_parsing {A : Type} (xml_to_unicode : string -> string)
    (br : fetcher) (url key : string) (path : string) (limit : Q)
    (parser : string -> outcome A) (timeout : Q)
    (simple_scraper : option fetcher) (w : world) :
  let answer := fetch_of br simple_scraper url timeout (fetch_begins limit key w) in
  let result := query xml_to_unicode br url key (Some path) limit parser timeout
                      true simple_scraper w in
  match body answer with
  | Ok fetched =>
      let raw := decoder_of xml_to_unicode simple_scraper fetched in
      match disk w path raw with
      | Dumped =>
          result.2 = parser raw
          /\ files result.1 !! path = Some raw
          /\ saved_raw result.1 = saved_raw w ++ [raw]
      | DumpRaises e remains =>
          result.2 = Raise e
          /\ saved_raw result.1 = saved_raw w
          /\ files result.1 !! path
             = match remains with
               | Some text => Some text
               | None => files w !! path
               end
      end
  | Raise e =>
      result.2 = Raise e
      /\ files result.1 = files w
      /\ saved_raw result.1 = saved_raw w
  end.
Proof.
  cbv zeta.
  destruct (query_world xml_to_unicode br url key (Some path) limit parser timeout
              true simple_scraper w) as (_ & _ & Hf & Hs & _).
  cbv zeta in Hf, Hs. rewrite Hf, Hs, query_result.
  destruct (attempt_fetch xml_to_unicode br simple_scraper url timeout
              (fetch_begins limit key w)) as [_ ->].
  destruct (body (fetch_of br simple_scraper url timeout _)) as [fetched|e];
    [|now repeat split].
  unfold dump_raises.
  destruct (disk w path _) as [|e [text|]];
    rewrite ?lookup_insert_eq; now repeat split.
Qed.

(** ** Query sanitizers, continued *)

Lemma without_quotes_clean (t : string) :
  PyStr.contains_char PyStr.dquote (without_quotes t) = false.
Proof.
  induction t as [|c t IH]; [reflexivity|]. cbn [without_quotes].
  destruct (Ascii.eqb c PyStr.dquote) eqn:E; [exact IH|].
  cbn [PyStr.contains_char]. now rewrite E, IH.
Qed.

Lemma without_quotes_id (s : string) :
  PyStr.contains_char PyStr.dquote s = false -> without_quotes s = s.
Proof.
  induction s as [|c s IH]; [reflexivity|]. cbn [PyStr.contains_char without_quotes].
  intros [Hc Hs]%orb_false_elim. now rewrite Hc, IH.
Qed.

Lemma without_quotes_wrapped (s : string) :
  without_quotes (String PyStr.dquote s +:+ String PyStr.dquote "") = without_quotes s.
Proof.
  rewrite app_cons. cbn [without_quotes]. rewrite Ascii.eqb_refl.
  induction s as [|c s IH]; [reflexivity|].
  rewrite app_cons. cbn [without_quotes]. now rewrite IH.
Qed.

Lemma operator_cases (s : string) :
  s ∈ operators -> s = "OR" \/ s = "AND" \/ s = "NOT".
Proof.
  unfold operators. rewrite !elem_of_cons, elem_of_nil. tauto.
Qed.

Lemma lower_idem (s : string) : PyStr.lower (PyStr.lower s) = PyStr.lower s.
Proof.
  induction s as [|c s IH]; [reflexivity|]. cbn [PyStr.lower]. rewrite IH. f_equal.
  destruct c as [[] [] [] [] [] [] [] []]; reflexivity.
Qed.

Lemma lower_wrapped (s : string) :
  PyStr.lower (String PyStr.dquote s +:+ String PyStr.dquote "")
  = String PyStr.dquote (PyStr.lower s) +:+ String PyStr.dquote "".
Proof.
  rewrite !app_cons. cbn [PyStr.lower]. f_equal.
  induction s as [|c s IH]; [reflexivity|].
  rewrite !app_cons. cbn [PyStr.lower]. now rewrite IH.
Qed.

Lemma wrapped_not_keyword (s : string) :
  String PyStr.dquote s +:+ String PyStr.dquote "" ∉ ddg_keywords.
Proof.
  unfold ddg_keywords. rewrite !elem_of_cons, elem_of_nil, app_cons.
  intros [H|[H|[]]]; discriminate H.
Qed.

Lemma bing_term_stripped (t : string) :
  bing_term t = (if bool_decide (without_quotes t ∈ operators)
                 then PyStr.lower (without_quotes t) else without_quotes t).
Proof. unfold bing_term. now rewrite replace_dquote_is_without_quotes. Qed.

Lemma google_term_stripped (t : string) :
  google_term t = (if bool_decide (without_quotes t ∈ operators)
                   then PyStr.lower (without_quotes t) else without_quotes t).
Proof. unfold google_term. now rewrite replace_dquote_is_without_quotes. Qed.

Lemma ddg_term_stripped (t : string) :
  ddg_term t =
    (if bool_decide (PyStr.lower (without_quotes t) ∈ ddg_keywords)
     then String PyStr.dquote (without_quotes t) +:+ String PyStr.dquote ""
     else if bool_decide (without_quotes t ∈ operators)
          then PyStr.lower (without_quotes t) else without_quotes t).
Proof.
  unfold ddg_term. rewrite replace_dquote_is_without_quotes.
  destruct (bool_decide (PyStr.lower (without_quotes t) ∈ ddg_keywords)); [|reflexivity].
  now rewrite quoted_not_operator.
Qed.

(** X8: no sanitizer ever hands a reserved operator on to the search
    engine, whatever the term.  What Bing's and Google's sanitizers return
    holds no double quote, and what DDG's returns is never a bare
    result-type keyword ([map], [news]) in any capitalisation. *)
Theorem sanitized_term_is_inert (t : string) :
  (ddg_term t ∉ operators) /\ (bing_term t ∉ operators) /\ (google_term t ∉ operators)
  /\ PyStr.contains_char PyStr.dquote (bing_term t) = false
  /\ PyStr.contains_char PyStr.dquote (google_term t) = false
  /\ PyStr.lower (ddg_term t) ∉ ddg_keywords.
Proof.
  rewrite ddg_term_stripped, bing_term_stripped, google_term_stripped.
  pose proof (without_quotes_clean t) as Hclean.
  destruct (decide (without_quotes t ∈ operators)) as [Hop|Hop].
  - rewrite (bool_decide_eq_true_2 _ Hop).
    apply operator_cases in Hop as [E|[E|E]]; rewrite E;
      repeat split; try reflexivity;
      apply (bool_decide_unpack _); vm_compute; exact I.
  - rewrite (bool_decide_eq_false_2 _ Hop).
    repeat split; try assumption.
    + destruct (bool_decide _); [|exact Hop].
      intros H. pose proof (quoted_not_operator (without_quotes t)) as Hq.
      apply bool_decide_eq_false in Hq. contradiction.
    + destruct (decide (PyStr.lower (without_quotes t) ∈ ddg_keywords)) as [Hk|Hk].
      * rewrite (bool_decide_eq_true_2 _ Hk), lower_wrapped. apply wrapped_not_keyword.
      * now rewrite (bool_decide_eq_false_2 _ Hk).
Qed.

(** X9: the sanitizers are idempotent: sanitizing a term that has been
    sanitized already changes nothing, so a caller may pass terms
    through more than once. *)
Theorem sanitizers_idempotent (t : string) :
  ddg_term (ddg_term t) = ddg_term t
  /\ bing_term (bing_term t) = bing_term t
  /\ google_term (google_term t) = google_term t.
Proof.
  pose proof (without_quotes_clean t) as Hclean.
  assert (forall s, PyStr.contains_char PyStr.dquote s = false -> s ∉ operators ->
                    (if bool_decide (without_quotes s ∈ operators)
                     then PyStr.lower (without_quotes s) else without_quotes s) = s) as Hfix.
  { intros s Hs Hop. rewrite (without_quotes_id s Hs). now rewrite bool_decide_eq_false_2. }
  split; [|split].
  - rewrite (ddg_term_stripped t).
    destruct (decide (PyStr.lower (without_quotes t) ∈ ddg_keywords)) as [Hk|Hk].
    + rewrite (bool_decide_eq_true_2 _ Hk), ddg_term_stripped, without_quotes_wrapped.
      rewrite (without_quotes_id _ Hclean). now rewrite bool_decide_eq_true_2.
    + rewrite (bool_decide_eq_false_2 _ Hk).
      destruct (decide (without_quotes t ∈ operators)) as [Hop|Hop].
      * rewrite (bool_decide_eq_true_2 _ Hop).
        apply operator_cases in Hop as [E|[E|E]]; rewrite E; reflexivity.
      * rewrite (bool_decide_eq_false_2 _ Hop), ddg_term_stripped.
        rewrite (without_quotes_id _ Hclean).
        now rewrite (bool_decide_eq_false_2 _ Hk), (bool_decide_eq_false_2 _ Hop).
  - rewrite (bing_term_stripped t).
    destruct (decide (without_quotes t ∈ operators)) as [Hop|Hop].
    + rewrite (bool_decide_eq_true_2 _ Hop).
      apply operator_cases in Hop as [E|[E|E]]; rewrite E; reflexivity.
    + rewrite (bool_decide_eq_false_2 _ Hop), bing_term_stripped. now apply Hfix.
  - rewrite (google_term_stripped t).
    destruct (decide (without_quotes t ∈ operators)) as [Hop|Hop].
    + rewrite (bool_decide_eq_true_2 _ Hop).
      apply operator_cases in Hop as [E|[E|E]]; rewrite E; reflexivity.
    + rewrite (bool_decide_eq_false_2 _ Hop), google_term_stripped. now apply Hfix.
Qed.

(** ** Cache-URL resolver, continued *)

Lemma search_https_found (s : string) (i : nat) :
  search_https s = Some i -> https_at (PyStr.drop i s) = true.
Proof.
  intros H. apply search_https_some in H. apply H.
Qed.

Lemma https_at_not_slash (s : string) :
  https_at s = true -> PyStr.startswith s "/" = false.
Proof.
  unfold https_at, PyStr.startswith. destruct s as [|c s]; [discriminate|].
  rewrite !prefix_cons, prefix_empty.
  destruct (Ascii.eqb_spec "h" c) as [<-|_]; [reflexivity|discriminate].
Qed.

Lemma archive_host_https (url : string) : https_at (archive_host +:+ url) = true.
Proof.
  unfold https_at, archive_host. apply orb_true_intro. right.
  repeat rewrite app_cons. repeat rewrite prefix_cons. now rewrite prefix_empty.
Qed.

Lemma partition_absent (sep : ascii) (s : string) :
  PyStr.contains_char sep s = false -> PyStr.partition sep s = (s, "", "").
Proof.
  induction s as [|c s IH]; [reflexivity|]. cbn [PyStr.contains_char PyStr.partition].
  intros [Hc Hs]%orb_false_elim. rewrite Hc, (IH Hs). reflexivity.
Qed.

(** X10: [wayback_url_processor] turns every site-relative URL (one that
    begins with [/]) into an absolute one that begins with [http:] or
    [https:], and leaves every other URL alone; so it is idempotent. *)
Theorem wayback_url_processor_absolute (url : string) :
  (if PyStr.startswith url "/"
   then https_at (wayback_url_processor url) = true
   else wayback_url_processor url = url)
  /\ PyStr.startswith (wayback_url_processor url) "/" = false
  /\ wayback_url_processor (wayback_url_processor url) = wayback_url_processor url.
Proof.
  assert (if PyStr.startswith url "/"
          then https_at (wayback_url_processor url) = true
          else wayback_url_processor url = url) as H.
  { unfold wayback_url_processor. destruct (PyStr.startswith url "/"); [|reflexivity].
    destruct (search_https url) as [i|] eqn:E.
    - now apply search_https_found.
    - apply archive_host_https. }
  assert (PyStr.startswith (wayback_url_processor url) "/" = false) as Hrel.
  { destruct (PyStr.startswith url "/") eqn:E.
    - now apply https_at_not_slash.
    - now rewrite H. }
  repeat split; [exact H|exact Hrel|].
  unfold wayback_url_processor at 1. now rewrite Hrel.
Qed.

(** X11: what [resolve_url] does outside the [wayback:] case.  Behind
    [bing:] the rest of the text is the answer, whatever it holds (further
    colons included).  A text with no colon at all comes back unchanged,
    except the bare words [bing] and [wayback], which come back as the
    empty text: the prefix test is made on the whole text and the rest is
    empty. *)
Theorem resolve_url_bing_and_bare (url : string) :
  resolve_url ("bing:" +:+ url) = url
  /\ (PyStr.contains_char ":" url = false ->
      resolve_url url = if bool_decide (url = "bing" \/ url = "wayback") then "" else url).
Proof.
  split.
  - unfold resolve_url.
    change (PyStr.partition ":" ("bing:" +:+ url)) with ("bing", ":", url).
    cbv iota beta. now rewrite bool_decide_eq_true_2 by reflexivity.
  - intros Hno. unfold resolve_url. rewrite (partition_absent _ _ Hno).
    destruct (decide (url = "bing")) as [->|Hb]; [reflexivity|].
    rewrite (bool_decide_eq_false_2 _ Hb).
    destruct (decide (url = "wayback")) as [->|Hw]; [reflexivity|].
    rewrite (bool_decide_eq_false_2 _ Hw).
    rewrite bool_decide_eq_false_2 by tauto. reflexivity.
Qed.

Lemma resolve_url_bing_and_bare_witness :
  resolve_url "wayback" = "" /\ resolve_url "bing:wayback:/x" = "wayback:/x".
Proof.
  split.
  - apply (proj2 (resolve_url_bing_and_bare "wayback")). reflexivity.
  - apply (proj1 (resolve_url_bing_and_bare "wayback:/x")).
Defined.

(** ** DDG redirect links, continued *)

Lemma query_values_found (name value : string)
    (before after : list (string * string)) :
  Forall (fun kv : string * string => kv.1 <> name) before ->
  (filter (fun nv : string * string => nv.1 = name)
          (before ++ (name, value) :: after)).*2
  = value :: (filter (fun nv : string * string => nv.1 = name) after).*2.
Proof.
  intros Hb. rewrite filter_app.
  assert (filter (fun nv : string * string => nv.1 = name) before = []) as ->.
  { induction Hb as [|kv l Hkv Hl IH]; [reflexivity|].
    rewrite filter_cons. destruct (decide (kv.1 = name)); [contradiction|exact IH]. }
  cbn [app]. rewrite filter_cons. cbn [fst].
  destruct (decide (name = name)); [reflexivity|contradiction].
Qed.

(** X12: on Python 2 [ddg_href] undoes the encoding of a redirect link.
    For a link whose query string is the [urlencode] of some parameters,
    with the target under [uddg] (the first [uddg] if there are several)
    and no empty value, the answer is the target itself, decoded as UTF-8
    by the codec of Python 2 (which also takes an encoded surrogate); the
    other parameters do not matter, nor does the runtime that made the
    link. *)
Theorem ddg_href_reads_encoded_target (rt : runtime) (target : string)
    (before after : list (string * string)) :
  target <> "" ->
  Forall (fun kv : string * string => kv.1 <> "uddg" /\ kv.2 <> "") before ->
  Forall (fun kv : string * string => kv.2 <> "") after ->
  ddg_href Python2 ("/l/?" +:+ urlencode rt (before ++ ("uddg", target) :: after))
  = Url.decode_utf8 Python2 target.
Proof.
  intros Ht Hb Ha.
  rewrite ddg_href_python2 by reflexivity.
  change (PyStr.partition "?" ("/l/?" +:+ ?x)) with ("/l/", "?", x).
  cbn [snd]. unfold query_values.
  rewrite parse_qsl_urlencode.
  - rewrite query_values_found; [reflexivity|].
    eapply Forall_impl; [exact Hb|]. now intros kv [H _].
  - apply Forall_app. split.
    + eapply Forall_impl; [exact Hb|]. now intros kv [_ H].
    + constructor; [exact Ht|exact Ha].
Qed.

Lemma ddg_href_reads_encoded_target_witness :
  ddg_href Python2 "/l/?kh=-1&uddg=https%3A%2F%2Fexample.com%2Fa+b%7E&rut=0f"
  = Ok "https://example.com/a b~".
Proof.
  apply (ddg_href_reads_encoded_target Python2 "https://example.com/a b~"
           [("kh", "-1")] [("rut", "0f")]).
  - discriminate.
  - repeat constructor; discriminate.
  - repeat constructor; discriminate.
Defined.

(** The codec of Python 2 decodes the three bytes of an encoded
    surrogate, where the codec of Python 3 raises. *)
Example ddg_href_python2_surrogate :
  ddg_href Python2 "/l/?uddg=%ED%A0%80"
  = Ok (String "237" (String "160" (String "128" "")))
  /\ Url.decode_utf8 Python3 (String "237" (String "160" (String "128" "")))
     = Raise UnicodeError.
Proof. split; vm_compute; reflexivity. Qed.

(** ** Result extraction, continued *)

Section Selected.

Import Dom.

(** A selected node passes the test of the last step of the path. *)
Lemma select_last_test (forest : list node) (path : list step) (st : step) (n : node) :
  n ∈ select forest (path ++ [st]) -> step_test st n = true.
Proof.
  unfold select. rewrite list_elem_of_omap. intros (chain & Hin & Hhead).
  apply list_elem_of_filter in Hin as [Hreach _].
  rewrite rev_app_distr in Hreach. cbn [rev app] in Hreach.
  destruct chain as [|m up]; [discriminate Hhead|].
  cbn in Hhead. injection Hhead as ->.
  cbn [reaches] in Hreach. now apply andb_prop in Hreach as [Ht _].
Qed.

Lemma selected_first (forest : list node) (path : list step) (st : step)
    (n : node) (rest : list node) :
  select forest (path ++ [st]) = n :: rest -> step_test st n = true.
Proof.
  intros H. apply (select_last_test forest path st). rewrite H. apply list_elem_of_here.
Qed.

Lemma has_attr_get (name : string) (n : node) :
  has_attr name n = true -> exists v, get n name = Some v.
Proof. unfold has_attr. destruct (get n name) as [v|]; [now exists v|discriminate]. Qed.

Lemma title_link_has_href (li a : node) (links : list node) :
  match xpath_rel li bing_title_path with
  | [] => xpath_rel li bing_title_fallback_path
  | found => found
  end = a :: links ->
  exists href, get a "href" = Some href.
Proof.
  intros H. apply has_attr_get.
  destruct (xpath_rel li bing_title_path) as [|b bs] eqn:E.
  - apply (selected_first (children_of li) [_] _ _ _) in H.
    now apply andb_prop in H as [_ H].
  - injection H as -> ->. apply (selected_first (children_of li) [_] _ _ _) in E.
    now apply andb_prop in E as [_ E].
Qed.

Lemma attribution_has_u (li div : node) (more : list node) :
  xpath_rel li bing_attribution_path = div :: more ->
  exists u, get div "u" = Some u.
Proof.
  intros H. apply has_attr_get.
  apply (selected_first (children_of li) [] _ _ _) in H.
  now apply andb_prop in H as [_ H].
Qed.

Lemma google_link_has_href (div a : node) (links : list node) :
  xpath_rel div google_link_path = a :: links ->
  exists href, get a "href" = Some href.
Proof.
  intros H. apply has_attr_get.
  apply (selected_first (children_of div) [] _ _ _) in H.
  now apply andb_prop in H as [_ H].
Qed.

End Selected.

Section Loops.

Import Dom.

Lemma selected_all (forest : list node) (path : list step) (st : step) :
  Forall (fun n => step_test st n = true) (select forest (path ++ [st])).
Proof. apply Forall_forall. intros n. apply select_last_test. Qed.

Lemma ddg_loop_mirrors (rt : runtime) (anchors : list node) :
  Forall (fun a => has_attr "href" a = true) anchors ->
  forall ans : list Result,
    match ddg_loop rt anchors ans with
    | Ok ans' =>
        exists added,
          ans' = ans ++ added
          /\ Forall2 (fun a r => exists href u,
                          get a "href" = Some href /\ ddg_href rt href = Ok u
                          /\ r = mkResult (Some u) (tostring a) None)
                     anchors added
    | Raise e =>
        exists a href, a ∈ anchors /\ get a "href" = Some href
                       /\ ddg_href rt href = Raise e
    end.
Proof.
  induction 1 as [|a anchors Ha Hrest IH]; intros ans.
  - exists []. now rewrite app_nil_r.
  - cbn [ddg_loop]. apply has_attr_get in Ha as [href Hhref]. rewrite Hhref.
    destruct (ddg_href rt href) as [u|e] eqn:Hu; cbn [bind].
    + specialize (IH (ans ++ [mkResult (Some u) (tostring a) None])).
      destruct (ddg_loop rt anchors _) as [ans'|e].
      * destruct IH as (added & -> & Hall). eexists (_ :: added). split.
        -- now rewrite <- app_assoc.
        -- constructor; [|exact Hall]. now exists href, u.
      * destruct IH as (b & h & Hb & Hh & He). exists b, h.
        split; [now apply list_elem_of_further|now split].
    + exists a, href. split; [apply list_elem_of_here|now split].
Qed.

End Loops.

(** X13: the DDG extraction mirrors the anchors the result path selects,
    and never logs.  When it returns, the list has exactly one result for
    each anchor, in document order, holding what [ddg_href] makes of the
    anchor's [href], the anchor's text, and no cached URL.  When it
    raises, the exception is the one [ddg_href] raised for the [href] of
    one of the anchors: a selected anchor always has an [href]. *)
Theorem ddg_results_mirror_anchors (rt : runtime) (root : node) (log : list log_line) :
  (ddg_search_results rt root log).1 = log
  /\ match (ddg_search_results rt root log).2 with
     | Ok ans =>
         Forall2 (fun a r => exists href u,
                      Dom.get a "href" = Some href /\ ddg_href rt href = Ok u
                      /\ r = mkResult (Some u) (Dom.tostring a) None)
                 (Dom.xpath_abs root ddg_result_path) ans
     | Raise e =>
         exists a href, a ∈ Dom.xpath_abs root ddg_result_path
                        /\ Dom.get a "href" = Some href
                        /\ ddg_href rt href = Raise e
     end.
Proof.
  split; [reflexivity|]. unfold ddg_search_results. cbn [snd].
  assert (Forall (fun a => Dom.has_attr "href" a = true)
                 (Dom.xpath_abs root ddg_result_path)) as Hhref.
  { eapply Forall_impl; [apply (selected_all [root] [_; _])|].
    cbn beta. intros a [[_ H]%andb_prop _]%andb_prop. exact H. }
  pose proof (ddg_loop_mirrors rt _ Hhref []) as H.
  destruct (ddg_loop rt _ []) as [ans|e]; [|exact H].
  now destruct H as (added & -> & Hall).
Qed.

Section BingLoop.

Import Dom.

Lemma bing_loop_accounts (q : string) (lis : list node) :
  forall (log : list log_line) (ans : list Result),
    match bing_loop q lis log ans with
    | (log', Ok ans') =>
        exists skipped added,
          log' = log ++ map LogNoCachedPage skipped
          /\ ans' = ans ++ added
          /\ length added + length skipped = length lis
          /\ Forall (bing_result_shape q) added
    | (log', Raise e) =>
        (e = IndexError \/ e = ValueError)
        /\ exists skipped,
             log' = log ++ map LogNoCachedPage skipped
             /\ length skipped < length lis
    end.
Proof.
  induction lis as [|li lis IH]; intros log ans.
  - exists [], []. cbn. now rewrite !app_nil_r.
  - cbn [bing_loop].
    destruct (match xpath_rel li bing_title_path with
              | [] => xpath_rel li bing_title_fallback_path
              | found => found
              end) as [|a links] eqn:Ha.
    { split; [now left|]. exists []. cbn. rewrite app_nil_r. split; [reflexivity|lia]. }
    destruct (title_link_has_href _ _ _ Ha) as [href Hhref].
    destruct (xpath_rel li bing_attribution_path) as [|div more] eqn:Hdiv.
    { specialize (IH (log ++ [LogNoCachedPage (tostring a)]) ans).
      destruct (bing_loop q lis _ ans) as [log' [ans'|e]].
      - destruct IH as (skipped & added & -> & -> & Hlen & Hshape).
        exists (tostring a :: skipped), added. cbn [map length].
        rewrite <- app_assoc. repeat split; [lia|exact Hshape].
      - destruct IH as (He & skipped & -> & Hlen). split; [exact He|].
        exists (tostring a :: skipped). cbn [map length].
        rewrite <- app_assoc. split; [reflexivity|lia]. }
    destruct (attribution_has_u _ _ _ Hdiv) as [u Hu]. rewrite Hu.
    destruct (PyStr.last_two (PyStr.split "|" u)) as [|d [|w [|x fields]]].
    1, 2, 4: split; [now right|]; exists []; cbn; rewrite app_nil_r;
      (split; [reflexivity|lia]).
    specialize (IH log (ans ++ [mkResult (get a "href") (tostring a)
                                         (Some (bing_cache_url q d w))])).
    destruct (bing_loop q lis log _) as [log' [ans'|e]].
    + destruct IH as (skipped & added & -> & -> & Hlen & Hshape).
      exists skipped, (mkResult (get a "href") (tostring a)
                                (Some (bing_cache_url q d w)) :: added).
      cbn [length]. rewrite <- app_assoc. repeat split; [lia|].
      constructor; [|exact Hshape]. split; [now exists href|now exists d, w].
    + destruct IH as (He & skipped & -> & Hlen). split; [exact He|].
      exists skipped. cbn [length]. split; [reflexivity|lia].
Qed.

End BingLoop.

(** X14: the Bing extraction accounts for every result item.  When it
    returns, each [li] the result path selects has given either one result
    or one [no cached page] log line, every result has a link and a cache
    URL on [cc.bingj.com] built from the query, and the page title is
    logged after the skipped items exactly when there is no result.  When
    it raises, the exception is [IndexError] or [ValueError], never
    another one, and the page title is not logged. *)
Theorem bing_results_accounted (q : string) (root : node) (log : list log_line) :
  match bing_search_results q root log with
  | (log', Ok ans) =>
      exists skipped,
        log' = log ++ map LogNoCachedPage skipped
               ++ match ans with
                  | [] => [LogNoResults (page_title root)]
                  | _ => []
                  end
        /\ length ans + length skipped
           = length (Dom.xpath_abs root bing_result_path)
        /\ Forall (bing_result_shape q) ans
  | (log', Raise e) =>
      (e = IndexError \/ e = ValueError)
      /\ exists skipped,
           log' = log ++ map LogNoCachedPage skipped
           /\ length skipped < length (Dom.xpath_abs root bing_result_path)
  end.
Proof.
  unfold bing_search_results.
  pose proof (bing_loop_accounts q (Dom.xpath_abs root bing_result_path) log []) as H.
  destruct (bing_loop q _ log []) as [log' [ans|e]]; [|exact H].
  destruct H as (skipped & added & -> & Hans & Hlen & Hshape).
  cbn [app] in Hans. subst ans. exists skipped.
  repeat split; [|exact Hlen|exact Hshape].
  unfold log_if_empty. destruct added; [|now rewrite app_nil_r].
  now rewrite app_assoc.
Qed.

Lemma split_nonempty (c : ascii) (s : string) : PyStr.split c s <> [].
Proof.
  destruct s as [|d s]; [discriminate|]. cbn [PyStr.split].
  destruct (Ascii.eqb d c); [discriminate|].
  destruct (PyStr.split c s); discriminate.
Qed.

Lemma split_at_sep (c : ascii) (x w : string) :
  PyStr.split c (x +:+ String c w) = PyStr.split c x ++ PyStr.split c w.
Proof.
  induction x as [|d x IH].
  - change ("" +:+ String c w) with (String c w). cbn [PyStr.split].
    now rewrite Ascii.eqb_refl.
  - rewrite app_cons. cbn [PyStr.split]. rewrite IH.
    destruct (Ascii.eqb d c); [reflexivity|].
    pose proof (split_nonempty c x) as Hne.
    destruct (PyStr.split c x) as [|f fs]; [contradiction|reflexivity].
Qed.

Lemma last_two_snoc {A : Type} (l : list A) (d w : A) :
  l <> [] -> PyStr.last_two (l ++ [w]) = [default d (last l); w].
Proof.
  intros Hne. unfold PyStr.last_two. rewrite length_app. cbn [length].
  replace (length l + 1 - 2)%nat with (length l - 1)%nat by lia.
  induction l as [|f [|g l] IH]; [contradiction|reflexivity|].
  rewrite last_cons_cons, <- IH by discriminate.
  cbn [length]. replace (S (S (length l)) - 1)%nat with (S (S (length l) - 1)) by lia.
  reflexivity.
Qed.

Lemma last_two_fields (x w : string) :
  PyStr.contains_char "|" w = false ->
  PyStr.last_two (PyStr.split "|" (x +:+ "|" +:+ w))
  = [default "" (last (PyStr.split "|" x)); w].
Proof.
  intros Hw. change ("|" +:+ w) with (String "|" w).
  rewrite split_at_sep, (split_none _ _ Hw).
  apply last_two_snoc, split_nonempty.
Qed.

(** X15: the unpacking [d, w = div.get('u').split('|')[-2:]] of a Bing
    result.  When the attribute [u] has no [|] the unpacking has one field
    only and the item raises [ValueError], dropping what was collected.
    Otherwise the cache URL is built from the last two fields, whatever
    stands before them. *)
Theorem bing_cache_fields (q u : string) (li a div : node)
    (links more rest : list node) (log : list log_line) (ans : list Result) :
  Dom.xpath_rel li bing_title_path = a :: links ->
  Dom.xpath_rel li bing_attribution_path = div :: more ->
  Dom.get div "u" = Some u ->
  (PyStr.contains_char "|" u = false ->
   bing_loop q (li :: rest) log ans = (log, Raise ValueError))
  /\ (forall x w : string,
         u = x +:+ "|" +:+ w ->
         PyStr.contains_char "|" w = false ->
         bing_loop q (li :: rest) log ans
         = bing_loop q rest log
             (ans ++ [mkResult (Dom.get a "href") (Dom.tostring a)
                        (Some (bing_cache_url q
                                 (default "" (last (PyStr.split "|" x))) w))])).
Proof.
  intros Ha Hdiv Hu. split.
  - intros Hno. cbn [bing_loop]. rewrite Ha, Hdiv, Hu.
    now rewrite (split_none _ _ Hno).
  - intros x w -> Hw. cbn [bing_loop]. rewrite Ha, Hdiv, Hu.
    now rewrite (last_two_fields x w Hw).
Qed.

Lemma bing_cache_fields_witness :
  bing_loop "calibre"
    [Element "li" [("class", "b_algo")]
       [bing_title "https://example.com/a" "A"; bing_attribution "0|5058|4678|abc"]]
    [] []
  = ([], Ok [mkResult (Some "https://example.com/a") "A"
               (Some (bing_cache_url "calibre" "4678" "abc"))]).
Proof.
  destruct (bing_cache_fields "calibre" "0|5058|4678|abc"
              (Element "li" [("class", "b_algo")]
                 [bing_title "https://example.com/a" "A";
                  bing_attribution "0|5058|4678|abc"])
              (Element "a" [("href", "https://example.com/a")] [Text "A"])
              (Element "div" [("class", "b_attribution"); ("u", "0|5058|4678|abc")]
                 [Text "example.com"])
              [] [] [] [] [] eq_refl eq_refl eq_refl) as [_ H].
  exact (H "0|5058|4678" "abc" eq_refl eq_refl).
Defined.

Section GoogleLoop.

Import Dom.

Lemma google_loop_accounts (cache_url_map : gmap string string) (divs : list node) :
  forall (log : list log_line) (ans : list Result),
    exists skipped added,
      google_loop cache_url_map divs log ans = (log ++ skipped, ans ++ added)
      /\ length added + length skipped = length divs
      /\ Forall google_skip_line skipped
      /\ Forall (fun r => exists href, url r = Some href
                   /\ (forall cached, cache_url_map !! href = Some cached ->
                                      cached_url r = Some cached)) added.
Proof.
  induction divs as [|div divs IH]; intros log ans.
  - exists [], []. cbn. now rewrite !app_nil_r.
  - cbn [google_loop].
    destruct (xpath_rel div google_link_path) as [|a links] eqn:Ha.
    { destruct (IH (log ++ [LogNoMainLink]) ans)
        as (skipped & added & -> & Hlen & Hskip & Hadd).
      exists (LogNoMainLink :: skipped), added. rewrite <- app_assoc.
      cbn [length]. repeat split; [lia| |exact Hadd].
      constructor; [now left|exact Hskip]. }
    destruct (google_link_has_href _ _ _ Ha) as [href Hhref]. rewrite Hhref.
    cbn [mbind option_bind].
    destruct (cache_url_map !! href) as [cached|] eqn:Hc.
    { destruct (IH log (ans ++ [mkResult (Some href) (tostring a) (Some cached)]))
        as (skipped & added & -> & Hlen & Hskip & Hadd).
      exists skipped, (mkResult (Some href) (tostring a) (Some cached) :: added).
      rewrite <- app_assoc. cbn [length]. repeat split; [lia|exact Hskip|].
      constructor; [|exact Hadd]. exists href. split; [reflexivity|].
      intros c. cbn. congruence. }
    destruct (xpath_rel div google_menu_path) as [|c more] eqn:Hm.
    + destruct (IH (log ++ [LogNoCachedPage (tostring a)]) ans)
        as (skipped & added & -> & Hlen & Hskip & Hadd).
      exists (LogNoCachedPage (tostring a) :: skipped), added. rewrite <- app_assoc.
      cbn [length]. repeat split; [lia| |exact Hadd].
      constructor; [right; now eexists|exact Hskip].
    + destruct (IH log (ans ++ [mkResult (Some href) (tostring a) (get c "href")]))
        as (skipped & added & -> & Hlen & Hskip & Hadd).
      exists skipped, (mkResult (Some href) (tostring a) (get c "href") :: added).
      rewrite <- app_assoc. cbn [length]. repeat split; [lia|exact Hskip|].
      constructor; [|exact Hadd]. exists href. split; [reflexivity|].
      intros cached. cbn. congruence.
Qed.

End GoogleLoop.

Lemma google_extract_cache_urls_outcome (unquote : string -> string) (raw : string) :
  google_extract_cache_urls unquote raw
  = match mapM (read_match unquote) (Re.finditer raw) with
    | None => Raise AttributeError
    | Some ms => Ok (file_matches ∅ (firsts [] ms))
    end.
Proof.
  unfold google_extract_cache_urls.
  apply (cache_urls_loop_spec unquote (Re.finditer raw) ∅ [] ∅).
  intros x. split; intros H; [now apply elem_of_empty in H|now apply elem_of_nil in H].
Qed.

(** X16: the Google extraction accounts for every result block.  When it
    returns, each [div] the result path selects has given either one
    result or one log line ([no main result link] or [no cached page]),
    every result has a link, a link filed in the cache-URL map carries the
    map's cache URL, and the page title is logged after the skipped blocks
    exactly when there is no result.  It raises only when the scan of the
    raw text does, with [AttributeError], before any block is looked at
    and without logging. *)
Theorem google_results_accounted (unquote : string -> string) (root : node)
    (raw : string) (log : list log_line) :
  match google_parse_results unquote root raw log with
  | (log', Ok ans) =>
      exists (cache_url_map : gmap string string) (skipped : list log_line),
        google_extract_cache_urls unquote raw = Ok cache_url_map
        /\ log' = log ++ skipped
                  ++ match ans with
                     | [] => [LogNoResults (page_title root)]
                     | _ => []
                     end
        /\ length ans + length skipped
           = length (Dom.xpath_abs root google_result_path)
        /\ Forall google_skip_line skipped
        /\ Forall (fun r => exists href, url r = Some href
                     /\ (forall cached, cache_url_map !! href = Some cached ->
                                        cached_url r = Some cached)) ans
  | (log', Raise e) =>
      e = AttributeError /\ log' = log
      /\ google_extract_cache_urls unquote raw = Raise AttributeError
  end.
Proof.
  unfold google_parse_results.
  pose proof (google_extract_cache_urls_outcome unquote raw) as Hscan.
  destruct (google_extract_cache_urls unquote raw) as [cache_url_map|e].
  - destruct (google_loop_accounts cache_url_map
                (Dom.xpath_abs root google_result_path) log [])
      as (skipped & added & -> & Hlen & Hskip & Hadd).
    cbn [app]. exists cache_url_map, skipped.
    repeat split; [|exact Hlen|exact Hskip|exact Hadd].
    unfold log_if_empty. destruct added; [|now rewrite app_nil_r].
    now rewrite app_assoc.
  - destruct (mapM _ _); [discriminate Hscan|]. injection Hscan as ->. now repeat split.
Qed.

(** ** Google cache URLs, continued *)

Section CacheScan.

Variable unquote : string -> string.

Lemma host_prefix (x : string) : String.prefix Re.cache_host (Re.cache_host +:+ x) = true.
Proof.
  unfold Re.cache_host. repeat rewrite app_cons. repeat rewrite prefix_cons.
  now rewrite prefix_empty.
Qed.

Lemma pat_at_host (s g : string) :
  Re.pat_at s = Some g -> exists x, g = Re.cache_host +:+ x.
Proof.
  unfold Re.pat_at. destruct (String.prefix _ s); [|discriminate].
  destruct (PyStr.drop _ s) as [|c s']; [discriminate|].
  destruct (Re.not_newline c); [|discriminate].
  destruct (Re.lazy_tail s') as [t|]; [|discriminate].
  cbn. intros [= <-]. now eexists.
Qed.

Lemma finditer_from_host (s : string) :
  forall (skip : nat) (g : string),
    g ∈ Re.finditer_from skip s -> exists x, g = Re.cache_host +:+ x.
Proof.
  induction s as [|c s IH]; intros skip g Hg; [now apply elem_of_nil in Hg|].
  cbn [Re.finditer_from] in Hg. destruct skip as [|k]; [|exact (IH _ _ Hg)].
  destruct (Re.pat_at (String c s)) as [g0|] eqn:E; [|exact (IH _ _ Hg)].
  apply elem_of_cons in Hg as [->|Hg]; [exact (pat_at_host _ _ E)|exact (IH _ _ Hg)].
Qed.

Lemma upat_sub_host (x : string) :
  Re.upat_sub (Re.cache_host +:+ x) = Re.cache_host +:+ Re.upat_sub x.
Proof.
  unfold Re.upat_sub, Re.cache_host. repeat rewrite app_cons.
  cbn [Re.upat_sub_from Re.upat_at]. reflexivity.
Qed.

Lemma pat_at_backslash (s : string) :
  PyStr.contains_char "\" s = false -> Re.pat_at s = None.
Proof.
  destruct s as [|c s]; [reflexivity|]. cbn [PyStr.contains_char].
  intros [Hc _]%orb_false_elim. unfold Re.pat_at, Re.esc_quote, Re.cache_host.
  rewrite app_cons, prefix_cons.
  destruct (Ascii.eqb_spec "\" c) as [<-|_]; [discriminate Hc|reflexivity].
Qed.

Lemma finditer_from_backslash (s : string) :
  forall skip : nat, PyStr.contains_char "\" s = false -> Re.finditer_from skip s = [].
Proof.
  induction s as [|c s IH]; intros skip H; [reflexivity|].
  cbn [Re.finditer_from]. rewrite (pat_at_backslash _ H).
  cbn [PyStr.contains_char] in H. apply orb_false_elim in H as [_ H].
  destruct skip; now apply IH.
Qed.

Lemma read_match_url (g : string) (m : cache_match) :
  read_match unquote g = Some m -> cm_url m = Re.upat_sub g.
Proof.
  unfold read_match. destruct (Re.cache_pat_search _) as [[cache_id src_url]|]; [|discriminate].
  now intros [= <-].
Qed.

Lemma scanned_url_origin (raw : string) (ms : list cache_match)
    (src cu : string) :
  mapM (read_match unquote) (Re.finditer raw) = Some ms ->
  file_matches ∅ (firsts [] ms) !! src = Some cu ->
  exists g, g ∈ Re.finditer raw /\ cu = Re.upat_sub g.
Proof.
  intros Hms Hcu. apply file_matches_origin in Hcu as [Hcu|(m & Hm & _ & <-)].
  { now rewrite lookup_empty in Hcu. }
  apply firsts_origin in Hm as (i & Hi & _).
  apply mapM_Some_1 in Hms.
  destruct (Forall2_lookup_r _ _ _ _ _ Hms Hi) as (g & Hg & Hread).
  exists g. split; [now apply list_elem_of_lookup_2 in Hg|].
  now apply read_match_url.
Qed.

End CacheScan.

(** X17: what the scan of the raw text for cache URLs can give.  When it
    returns a map, every cache URL in it stems from a match of the page
    and points at [https://webcache.googleusercontent.com/].  It raises
    exactly when some match holds no [cache:<id>:<url>] part, and then with
    [AttributeError]; matches with an identifier already seen are read
    before they are skipped, so they too can raise.  A raw text with no
    backslash has no match and gives the empty map. *)
Theorem cache_url_scan_outcome (unquote : string -> string) (raw : string) :
  match google_extract_cache_urls unquote raw with
  | Ok cache_url_map =>
      (forall g, g ∈ Re.finditer raw -> is_Some (read_match unquote g))
      /\ forall src cu,
           cache_url_map !! src = Some cu ->
           String.prefix Re.cache_host cu = true
           /\ exists g, g ∈ Re.finditer raw /\ cu = Re.upat_sub g
  | Raise e =>
      e = AttributeError
      /\ exists g, g ∈ Re.finditer raw /\ read_match unquote g = None
  end
  /\ (PyStr.contains_char "\" raw = false ->
      google_extract_cache_urls unquote raw = Ok ∅).
Proof.
  rewrite google_extract_cache_urls_outcome. split.
  - destruct (mapM (read_match unquote) (Re.finditer raw)) as [ms|] eqn:Hms.
    + split.
      * assert (is_Some (mapM (read_match unquote) (Re.finditer raw))) as H
          by (rewrite Hms; now eexists).
        apply mapM_is_Some_1 in H. rewrite Forall_forall in H. exact H.
      * intros src cu Hcu.
        destruct (scanned_url_origin unquote raw ms src cu Hms Hcu) as (g & Hg & ->).
        split; [|now exists g].
        destruct (finditer_from_host raw 0 g Hg) as [x ->].
        rewrite upat_sub_host. apply host_prefix.
    + split; [reflexivity|]. apply mapM_None_1 in Hms.
      apply Exists_exists in Hms. exact Hms.
  - intros Hno. unfold Re.finditer. now rewrite (finditer_from_backslash raw 0 Hno).
Qed.

Lemma cache_url_scan_outcome_witness :
  google_extract_cache_urls (fun s => s) "<html><body>no result</body></html>" = Ok ∅.
Proof.
  apply (proj2 (cache_url_scan_outcome (fun s => s)
                  "<html><body>no result</body></html>")).
  reflexivity.
Defined.

(** ** The search entry points, continued *)

Section EntryPoints.

Variable xml_to_unicode : string -> string.
Variable parse_html : string -> outcome node.
Variable json_loads : string -> outcome pyval.
Variable unquote : string -> string.
Variable rt : runtime.

Open Scope Q_scope.

Lemma ddg_search_run (terms : list string) (site : option string) (br : fetcher)
    (log : list log_line) (safe_search : bool) (dump_raw : option string)
    (timeout : Q) (w : world) :
  let url := "https://duckduckgo.com/html/?q=" +:+ build_query ddg_term terms site
             +:+ "&kp=" +:+ (if safe_search then "1" else "-1") in
  let asked := log ++ [LogMakingQuery "ddg" url] in
  let r := query xml_to_unicode br url "ddg" dump_raw 1 parse_html timeout false None w in
  ddg_search xml_to_unicode parse_html rt terms site br log safe_search dump_raw timeout w
  = (r.1, asked,
     match r.2 with
     | Raise e => Raise e
     | Ok root => try! ans <- (ddg_search_results rt root asked).2; Ok (ans, url)
     end).
Proof.
  cbv zeta. unfold ddg_search. cbv zeta.
  destruct (query _ _ _ _ _ _ _ _ _ _ _) as [w' [root|e]]; reflexivity.
Qed.

Lemma bing_search_run (terms : list string) (site : option string) (br : fetcher)
    (log : list log_line) (dump_raw : option string) (timeout : Q) (w : world) :
  let q := build_query bing_term terms site in
  let url := "https://www.bing.com/search?q=" +:+ q in
  let asked := log ++ [LogMakingQuery "bing" url] in
  let r := query xml_to_unicode br url "bing" dump_raw 1 parse_html timeout false None w in
  bing_search xml_to_unicode parse_html terms site br log dump_raw timeout w
  = (r.1,
     match r.2 with
     | Raise e => asked
     | Ok root => (bing_search_results q root asked).1
     end,
     match r.2 with
     | Raise e => Raise e
     | Ok root => try! ans <- (bing_search_results q root asked).2; Ok (ans, url)
     end).
Proof.
  cbv zeta. unfold bing_search. cbv zeta.
  destruct (query _ _ _ _ _ _ _ _ _ _ _) as [w' [root|e]]; [|reflexivity].
  cbn [fst snd]. now destruct (bing_search_results _ root _).
Qed.

Lemma google_search_run (terms : list string) (site : option string) (br : fetcher)
    (log : list log_line) (dump_raw : option string) (timeout : Q) (w : world) :
  let url := "https://www.google.com/search?q=" +:+ build_query google_term terms site in
  let asked := log ++ [LogMakingQuery "google" url] in
  let answer := br url timeout (fetch_begins 1 "google" w) in
  let r := query xml_to_unicode br url "google" dump_raw 1 parse_html timeout true None
                 (mkWorld (clock w) (last_visited w) (files w) [] (trace w) (disk w)) in
  google_search xml_to_unicode parse_html unquote terms site br log dump_raw timeout w
  = (r.1,
     match body answer with
     | Raise e => asked
     | Ok fetched =>
         match dump_raises dump_raw (xml_to_unicode fetched) w with
         | Some e => asked
         | None =>
             match parse_html (xml_to_unicode fetched) with
             | Raise e => asked
             | Ok root =>
                 (google_parse_results unquote root (xml_to_unicode fetched) asked).1
             end
         end
     end,
     match body answer with
     | Raise e => Raise e
     | Ok fetched =>
         match dump_raises dump_raw (xml_to_unicode fetched) w with
         | Some e => Raise e
         | None =>
             try! root <- parse_html (xml_to_unicode fetched);
             try! ans <- (google_parse_results unquote root
                            (xml_to_unicode fetched) asked).2;
             Ok (ans, url)
         end
     end).
Proof.
  cbv zeta. unfold google_search. cbv zeta.
  set (w0 := mkWorld (clock w) (last_visited w) (files w) [] (trace w) (disk w)).
  set (url := "https://www.google.com/search?q=" +:+ build_query google_term terms site).
  pose proof (query_result xml_to_unicode br url "google" dump_raw 1 parse_html
                timeout true None w0) as Hres.
  destruct (query_world xml_to_unicode br url "google" dump_raw 1 parse_html
              timeout true None w0) as (_ & _ & _ & Hsaved & _).
  cbv zeta in Hsaved.
  change (fetch_begins 1 "google" w0) with (fetch_begins 1 "google" w) in Hres, Hsaved.
  destruct (attempt_fetch xml_to_unicode br None url timeout
              (fetch_begins 1 "google" w)) as [_ Hbody].
  cbn [fetch_of decoder_of] in Hbody. rewrite Hbody in Hres, Hsaved. clear Hbody.
  destruct (query _ _ _ _ _ _ _ _ _ _ _) as [w' root]. cbn [fst snd] in *.
  destruct (body (br url timeout _)) as [fetched|e]; [|now subst root].
  change (dump_raises dump_raw (xml_to_unicode fetched) w0)
    with (dump_raises dump_raw (xml_to_unicode fetched) w) in Hres, Hsaved.
  destruct (dump_raises dump_raw (xml_to_unicode fetched) w) as [e|];
    [now subst root|].
  subst root. destruct (parse_html (xml_to_unicode fetched)) as [root|e]; [|reflexivity].
  rewrite Hsaved. cbn [saved_raw w0 app bind].
  now destruct (google_parse_results unquote root (xml_to_unicode fetched) _).
Qed.

Lemma wayback_run (url : string) (br : fetcher) (log : list log_line)
    (timeout : Q) (w : world) :
  let r := query xml_to_unicode br
             ("https://archive.org/wayback/available?url=" +:+ quote_term url)
             "wayback" None (1 # 4) json_loads timeout false None w in
  wayback_machine_cached_url xml_to_unicode json_loads url br log timeout w
  = (r.1,
     match r.2 with
     | Raise e => log
     | Ok data => (wayback_machine_cached_url_of data log).1
     end,
     match r.2 with
     | Raise e => Raise e
     | Ok data => Ok (wayback_machine_cached_url_of data log).2
     end).
Proof.
  cbv zeta. unfold wayback_machine_cached_url. cbv zeta.
  destruct (query _ _ _ _ _ _ _ _ _ _ _) as [w' [data|e]]; [|reflexivity].
  cbn [fst snd]. now destruct (wayback_machine_cached_url_of data log).
Qed.

End EntryPoints.



(** X18: [google_search] scans for cache URLs the very text it parsed,
    and that text is what the browser answered for the search URL, decoded.
    The list [r] handed to [query] as [save_raw] starts empty on every
    call, whatever was saved before, so [r[0]] is the text of this fetch:
    when the fetch, the dump and the parser succeed, the results are those
    of [google_parse_results] on the parsed text and the text itself.
    When the browser raises, the dump file cannot be written or the parser
    raises, that exception is raised, only the query line has been logged,
    and [r[0]] is never reached. *)
Theorem google_search_scans_fetched_text (xml_to_unicode : string -> string)
    (parse_html : string -> outcome node) (unquote : string -> string)
    (terms : list string) (site : option string) (br : fetcher)
    (log : list log_line) (dump_raw : option string) (timeout : Q) (w : world) :
  let url := "https://www.google.com/search?q=" +:+ build_query google_term terms site in
  let asked := log ++ [LogMakingQuery "google" url] in
  let answer := br url timeout (fetch_begins 1 "google" w) in
  let out := google_search xml_to_unicode parse_html unquote terms site br log
                           dump_raw timeout w in
  match body answer with
  | Raise e => out.2 = Raise e /\ out.1.2 = asked
  | Ok fetched =>
      let raw := xml_to_unicode fetched in
      match dump_raises dump_raw raw w with
      | Some e => out.2 = Raise e /\ out.1.2 = asked
      | None =>
          match parse_html raw with
          | Raise e => out.2 = Raise e /\ out.1.2 = asked
          | Ok root =>
              out.1.2 = (google_parse_results unquote root raw asked).1
              /\ out.2 = (try! ans <- (google_parse_results unquote root raw asked).2;
                          Ok (ans, url))
          end
      end
  end.
Proof.
  cbv zeta. rewrite google_search_run. cbv zeta. cbn [fst snd].
  destruct (body (br _ timeout _)) as [fetched|e]; [|now split].
  destruct (dump_raises dump_raw (xml_to_unicode fetched) w) as [e|]; [now split|].
  cbn [bind]. destruct (parse_html (xml_to_unicode fetched)) as [root|e]; now split.
Qed.




(** X20: every entry point throttles under its own key only.  A DDG,
    Bing or Google search or a wayback lookup, whether it returns or
    raises, leaves the last-access time of every other key as it was, so
    a search on one engine never delays the next search on another. *)
Theorem searches_touch_own_key (xml_to_unicode : string -> string)
    (parse_html : string -> outcome node) (json_loads : string -> outcome pyval)
    (unquote : string -> string) (rt : runtime)
    (terms : list string) (site : option string) (br : fetcher)
    (log : list log_line) (safe_search : bool) (dump_raw : option string)
    (timeout : Q) (w : world) (page other : string) :
  let ddg := ddg_search xml_to_unicode parse_html rt terms site br log safe_search
                        dump_raw timeout w in
  let bing := bing_search xml_to_unicode parse_html terms site br log dump_raw
                          timeout w in
  let google := google_search xml_to_unicode parse_html unquote terms site br log
                              dump_raw timeout w in
  let wayback := wayback_machine_cached_url xml_to_unicode json_loads page br log
                                            timeout w in
  (other <> "ddg" -> last_visited ddg.1.1 !! other = last_visited w !! other)
  /\ (other <> "bing" -> last_visited bing.1.1 !! other = last_visited w !! other)
  /\ (other <> "google" -> last_visited google.1.1 !! other = last_visited w !! other)
  /\ (other <> "wayback" ->
      last_visited wayback.1.1 !! other = last_visited w !! other).
Proof.
  cbv zeta. rewrite ddg_search_run, bing_search_run, google_search_run, wayback_run.
  cbv zeta. cbn [fst snd].
  repeat split; intros Hne;
    match goal with
    | |- last_visited (query ?x ?b ?u ?k ?d ?l ?p ?t ?s ?sc ?w0).1 !! _ = _ =>
        destruct (query_world x b u k d l p t s sc w0) as (_ & Hlv & _);
        cbv zeta in Hlv; rewrite Hlv
    end;
    now rewrite !lookup_insert_ne by congruence.
Qed.

Lemma searches_touch_own_key_witness :
  last_visited
    (bing_search (fun raw => raw) (fun _ => Raise (ParseError "no parser")) ["calibre"] None
       steady_fetcher [] None 60 two_fetches).1.1 !! "ddg"
  = last_visited two_fetches !! "ddg".
Proof.
  apply (searches_touch_own_key (fun raw => raw) (fun _ => Raise (ParseError "no parser"))
           (fun _ => Raise (ParseError "no parser")) (fun s => s) Python3
           ["calibre"] None steady_fetcher [] false None 60 two_fetches "" "ddg").
  discriminate.
Defined.
